(** * Lead-generation pipeline: a shallow embedding of [lead_filter.py] and
    [leadgen.py], and the properties of the duplicate filter, the lead
    scorer, the contact extractor's failure path, the in-batch
    deduplication, the paginated search and the result store. *)

From Stdlib Require Import ZArith QArith String Ascii List Bool Lia.
From Stdlib Require Import OrdersEx Sorted Permutation.
From stdpp Require Import base gmap strings list sorting.

#[local] Set Warnings "-clear-no-such-hyp".

Local Open Scope string_scope.
Local Open Scope Z_scope.
Local Open Scope list_scope.

(** ** Python values

    The fields that reach the scorer straight from the upstream JSON
    ([rating], [user_ratings_total]) and the page length are dynamically
    typed in the source; the scorer's [try]/[except] blocks exist for the
    values that are not numbers.  A finite float is represented by its exact
    rational value: the source only ever compares floats, and IEEE
    comparison of finite values is comparison of the values they denote. *)

Inductive pyfloat : Type :=
| FNaN
| FInf (negative : bool)
| FFin (q : Q).

Inductive pyval : Type :=
| VNone
| VBool (b : bool)
| VInt (n : Z)
| VFloat (f : pyfloat)
| VStr (s : string).

(** Outcome of an expression that may raise: [None] is "an exception was
    raised", which is all an [except Exception] clause looks at. *)
Definition raises (A : Type) : Type := option A.

(** An expression whose exception text is kept, for [str(e)]. *)
Inductive outcome (A : Type) : Type :=
| Raised (msg : string)
| Returned (a : A).
Arguments Raised {A} msg.
Arguments Returned {A} a.

Definition Qltb (x y : Q) : bool :=
  match (x ?= y)%Q with Lt => true | _ => false end.

(** [f < k] for a float [f] and an integer or float literal [k]. *)
Definition float_lt (f : pyfloat) (k : Q) : bool :=
  match f with
  | FNaN => false
  | FInf negative => negative
  | FFin q => Qltb q k
  end.

(** [v < k] where [k] is an [int] literal: [None] and [str] operands raise
    [TypeError]; [bool] is a subtype of [int]. *)
Definition py_lt_int (v : pyval) (k : Z) : raises bool :=
  match v with
  | VNone => None
  | VBool b => Some (Z.b2z b <? k)
  | VInt n => Some (n <? k)
  | VFloat f => Some (float_lt f (inject_Z k))
  | VStr _ => None
  end.

(** Truthiness of the values that the source tests with [not] / [if]. *)
Definition truthy_str (s : string) : bool :=
  match s with EmptyString => false | _ => true end.

Definition truthy_opt (o : option string) : bool :=
  match o with None => false | Some s => truthy_str s end.

Definition truthy_list {A} (l : list A) : bool :=
  match l with [] => false | _ => true end.

(** [x or y] on values that are [None] or a [str]. *)
Definition py_or (x y : option string) : option string :=
  if truthy_opt x then x else y.

(** The largest magnitude an [int] may have for [float(n)] not to raise
    [OverflowError]: integers from [2^1024 - 2^970] on round to [2^1024]. *)
Definition float_int_limit : Z := 2 ^ 1024 - 2 ^ 970.

(** A cell of the persisted table. *)
Definition cell : Type := pyval.

(** What the parsing half of [analyze_website] reads off the page text:
    [BeautifulSoup] for the title, the viewport tag and the visible text,
    the two regular expressions for e-mail addresses and phone numbers. *)
Record page_signals : Type := {
  ps_has_title : bool;
  ps_has_viewport : bool;
  ps_emails : list string;
  ps_phones : list string;
  ps_has_cta : bool
}.

(** The library code under the program that is not part of it: [float(s)]
    and [int(s)] on a [str] ([None] when they raise [ValueError]), the text
    the [csv] module reads for a cell, and the page parsing. *)
Class Runtime : Type := {
  float_of_str : string -> raises pyfloat;
  int_of_str : string -> raises Z;
  csv_text : cell -> string;
  parse_page : string -> outcome page_signals
}.

Section Pipeline.

Context `{Runtime}.

(** [float(v)].  Conversion of an [int] rounds to the nearest double;
    rounding is monotone and leaves 4.5 fixed, so the comparison made by
    the scorer is the same on the unrounded value, which is what [FFin]
    carries here. *)
Definition py_float (v : pyval) : raises pyfloat :=
  match v with
  | VNone => None
  | VBool b => Some (FFin (inject_Z (Z.b2z b)))
  | VInt n =>
      if Z.abs n <? float_int_limit then Some (FFin (inject_Z n)) else None
  | VFloat f => Some f
  | VStr s => float_of_str s
  end.

(** [int(v)]: truncation toward zero on floats, [ValueError] on NaN,
    [OverflowError] on infinities. *)
Definition py_int (v : pyval) : raises Z :=
  match v with
  | VNone => None
  | VBool b => Some (Z.b2z b)
  | VInt n => Some n
  | VFloat (FFin q) => Some (Z.quot (Qnum q) (Z.pos (Qden q)))
  | VFloat _ => None
  | VStr s => int_of_str s
  end.

Definition is_none (v : pyval) : bool :=
  match v with VNone => true | _ => false end.

(** *** [score_lead] (leadgen.py) *)

(** [rating is None or float(rating) < 4.5], inside its [try]. *)
Definition rating_test (rating : pyval) : raises bool :=
  if is_none rating then Some true
  else match py_float rating with
       | Some f => Some (float_lt f (9 # 2))
       | None => None
       end.

(** [user_ratings_total is None or int(user_ratings_total) < 15]. *)
Definition reviews_test (user_ratings_total : pyval) : raises bool :=
  if is_none user_ratings_total then Some true
  else match py_int user_ratings_total with
       | Some n => Some (n <? 15)
       | None => None
       end.

Definition score_lead (has_website https has_viewport : bool)
    (html_length : pyval) (emails : list string) (has_cta : bool)
    (rating user_ratings_total : pyval) : Z :=
  let score := 0 in
  if negb has_website then
    let score := score + 10 in
    score
  else
  let score := if negb https then score + 5 else score in
  let score := if negb has_viewport then score + 3 else score in
  let score :=
    match py_lt_int html_length 5000 with
    | Some c => if c then score + 3 else score
    | None => score + 3
    end in
  let score := if negb (truthy_list emails) then score + 2 else score in
  let score := if negb has_cta then score + 2 else score in
  let score :=
    match rating_test rating with
    | Some c => if c then score + 1 else score
    | None => score + 1
    end in
  let score :=
    match reviews_test user_ratings_total with
    | Some c => if c then score + 1 else score
    | None => score + 1
    end in
  score.

(** ** [lead_filter.py] *)

(** The persisted store [leads_output.csv] as its two readers meet it:
    the file is absent, or opening and decoding it raises (bytes that are
    not UTF-8, for instance), or it holds a table.  Cells are kept as the
    values [pandas] writes and reads back, with [VNone] for a missing
    value (the text round trip is taken to preserve them);
    [csv.DictReader] sees every cell as the text [csv_text] of it. *)
Record DataFrame : Type := {
  df_columns : list string;
  df_rows : list (list cell)
}.

Inductive store_file : Type :=
| Missing
| Unreadable
| Table (df : DataFrame).

Definition os_path_exists (csv_path : store_file) : bool :=
  match csv_path with Missing => false | _ => true end.

(** A Python [dict] in insertion order.  [dict_set] overwrites in place
    or appends, as assignment to a key does. *)
Definition dict (K V : Type) : Type := list (K * V).

Fixpoint dict_get {K V} `{EqDecision K} (d : dict K V) (k : K) : option V :=
  match d with
  | [] => None
  | (k', v) :: d' => if decide (k' = k) then Some v else dict_get d' k
  end.

Definition dict_in {K V} `{EqDecision K} (k : K) (d : dict K V) : bool :=
  match dict_get d k with Some _ => true | None => false end.

Fixpoint dict_set {K V} `{EqDecision K} (d : dict K V) (k : K) (v : V)
    : dict K V :=
  match d with
  | [] => [(k, v)]
  | (k', v') :: d' =>
      if decide (k' = k) then (k', v) :: d' else (k', v') :: dict_set d' k v
  end.

Definition dict_values {K V} (d : dict K V) : list V := map snd d.

(** [dict(zip(fieldnames, row))], the row that [csv.DictReader] yields. *)
Definition reader_row (fieldnames : list string) (r : list cell)
    : dict string string :=
  fold_left (fun d kv => dict_set d (fst kv) (csv_text (snd kv)))
            (combine fieldnames r) [].

(** [open(csv_path, encoding="utf-8")] followed by iteration of the
    reader; raises on a file that cannot be decoded. *)
Definition dict_reader (csv_path : store_file) : raises (list (dict string string)) :=
  match csv_path with
  | Missing => None
  | Unreadable => None
  | Table df => Some (map (reader_row (df_columns df)) (df_rows df))
  end.

Definition load_existing_place_ids (csv_path : store_file)
    : raises (gset string) :=
  if negb (os_path_exists csv_path) then Some ∅
  else
    match dict_reader csv_path with
    | None => None
    | Some reader =>
        Some (fold_left
                (fun existing row =>
                   match dict_get row "place_id" with
                   | Some v => existing ∪ {[ v ]}
                   | None => existing
                   end)
                reader ∅)
    end.

(** The body runs under [_lock], so it is one atomic step on the set: the
    answer and the set after the call. *)
Definition is_new_place (place_id : string) (existing_ids : gset string)
    : bool * gset string :=
  if bool_decide (place_id ∈ existing_ids) then (false, existing_ids)
  else (true, existing_ids ∪ {[ place_id ]}).

(** ** [leadgen.py]: configuration *)

Definition SEARCH_RADIUS : Z := 50000.
Definition KEYWORDS : list string := ["landscaping"; "house cleaning"].
Definition LOCATION : string := "39.9526,-75.1652".
Definition PLACES_SLEEP : Z := 2.

(** ** The outside world and what the program does to it *)

(** One entry of [results] in a Nearby Search answer, with the keys the
    program reads. *)
Record raw_place : Type := {
  rp_place_id : option string;
  rp_name : option string;
  rp_rating : pyval;
  rp_user_ratings_total : pyval;
  rp_vicinity : option string;
  rp_formatted_address : option string
}.

(** Answer to one Nearby Search request: the [try] block raised (network
    error, body that is not JSON), or a page with its continuation
    token. *)
Inductive search_response : Type :=
| SearchFailed
| SearchPage (results : list raw_place) (next_page_token : option string).

Record details : Type := {
  d_website : option string;
  d_phone_google : option string;
  d_address : option string
}.

Inductive search_params : Type :=
| Nearby (location : string) (radius : Z) (keyword : string)
         (key : option string)
| PageToken (pagetoken : string) (key : option string).

Inductive event : Type :=
| EvSearch (params : search_params)
| EvSleep (seconds : Z)
| EvDetails (place_id : option string) (key : option string)
| EvFetch (url : string).

Inductive http_response : Type :=
| HttpError (msg : string)
| HttpBody (text : string).

(** The services the program talks to.  Nearby Search answers are taken in
    the order the requests are issued ([nearby_search w k] answers the
    request made after [k] earlier ones); Place Details and website
    fetches answer by what is asked ([None]: the call raised).  The thread
    pool hands finished tasks back in an order of its choosing. *)
Record world : Type := {
  nearby_search : nat -> search_response;
  place_details : option string -> raises details;
  http_get : string -> http_response;
  as_completed : forall A : Type, list A -> list A
}.

(** *** [get_places] *)

Record business : Type := {
  b_business_name : option string;
  b_place_id : option string;
  b_rating : pyval;
  b_user_ratings_total : pyval;
  b_address : option string
}.

(** Body of [for p in results]. *)
Definition add_place (places : dict string business) (p : raw_place)
    : dict string business :=
  match rp_place_id p with
  | None => places
  | Some pid =>
      if negb (truthy_str pid) then places
      else if dict_in pid places then places
      else dict_set places pid
             {| b_business_name := rp_name p;
                b_place_id := Some pid;
                b_rating := rp_rating p;
                b_user_ratings_total := rp_user_ratings_total p;
                b_address := py_or (rp_vicinity p) (rp_formatted_address p) |}
  end.

(** The [while True] loop of one keyword.  [k] counts the search requests
    issued so far; the result carries the mapping, the new count and the
    events of this loop in order.  The loop has no bound of its own, so it
    is run on [fuel]: [None] means the fuel ran out before the loop left. *)
Fixpoint paginate (fuel : nat) (w : world) (api_key : option string)
    (params : search_params) (k : nat) (places : dict string business)
    : option (dict string business * nat * list event) :=
  match fuel with
  | O => None
  | S fuel' =>
      match nearby_search w k with
      | SearchFailed => Some (places, S k, [EvSearch params])
      | SearchPage results next_token =>
          let places := fold_left add_place results places in
          match next_token with
          | Some tok =>
              if truthy_str tok then
                match paginate fuel' w api_key (PageToken tok api_key)
                               (S k) places with
                | Some (places', k', evs) =>
                    Some (places', k',
                          EvSearch params :: EvSleep PLACES_SLEEP :: evs)
                | None => None
                end
              else Some (places, S k, [EvSearch params])
          | None => Some (places, S k, [EvSearch params])
          end
      end
  end.

(** The [for kw in keywords] loop around it. *)
Fixpoint search_keywords (fuel : nat) (w : world) (location : string)
    (radius : Z) (keywords : list string) (api_key : option string)
    (k : nat) (places : dict string business)
    : option (dict string business * nat * list event) :=
  match keywords with
  | [] => Some (places, k, [])
  | kw :: keywords' =>
      match paginate fuel w api_key (Nearby location radius kw api_key)
                     k places with
      | None => None
      | Some (places, k, evs) =>
          match search_keywords fuel w location radius keywords' api_key
                                k places with
          | None => None
          | Some (places, k, evs') => Some (places, k, evs ++ evs')
          end
      end
  end.

Definition get_places (fuel : nat) (w : world) (location : string)
    (radius : Z) (keywords : list string) (api_key : option string)
    : option (list business * list event) :=
  match search_keywords fuel w location radius keywords api_key 0%nat []
  with
  | None => None
  | Some (places, _, evs) => Some (dict_values places, evs)
  end.

(** *** [get_place_details] *)

Definition get_place_details (w : world) (place_id : option string)
    : details :=
  match place_details w place_id with
  | Some result => result
  | None => {| d_website := None; d_phone_google := None; d_address := None |}
  end.

(** *** [analyze_website] *)

Definition in_range (lo hi : nat) (c : ascii) : bool :=
  let n := nat_of_ascii c in ((lo <=? n) && (n <=? hi))%nat.

Definition lower_char (c : ascii) : ascii :=
  if in_range 65 90 c then ascii_of_nat (nat_of_ascii c + 32) else c.

(** [s.lower()], on the ASCII letters. *)
Fixpoint lower (s : string) : string :=
  match s with
  | EmptyString => EmptyString
  | String c s' => String (lower_char c) (lower s')
  end.

Definition startswith (s p : string) : bool := String.prefix p s.

(** [urllib.parse.urlparse(url).scheme], after CPython's [urlsplit]:
    leading control characters and spaces are stripped, tabs and line
    breaks removed, and the text before the first colon is the scheme when
    it starts with a letter and consists of letters, digits, [+], [-]
    and [.].  A network location with an unmatched square bracket
    raises [ValueError]. *)
Fixpoint lstrip_c0 (s : string) : string :=
  match s with
  | String c s' => if in_range 0 32 c then lstrip_c0 s' else s
  | EmptyString => s
  end.

Fixpoint remove_unsafe (s : string) : string :=
  match s with
  | EmptyString => EmptyString
  | String c s' =>
      if (nat_of_ascii c =? 9)%nat || (nat_of_ascii c =? 10)%nat
         || (nat_of_ascii c =? 13)%nat
      then remove_unsafe s' else String c (remove_unsafe s')
  end.

Definition is_alpha (c : ascii) : bool :=
  in_range 65 90 c || in_range 97 122 c.

Definition is_scheme_char (c : ascii) : bool :=
  is_alpha c || in_range 48 57 c
  || (nat_of_ascii c =? 43)%nat || (nat_of_ascii c =? 45)%nat
  || (nat_of_ascii c =? 46)%nat.

(** [url.find(c)] as the split it is used for: the text before the first
    character satisfying [stop], and the text from it on. *)
Fixpoint break_at (stop : ascii -> bool) (s : string) : string * string :=
  match s with
  | EmptyString => (EmptyString, EmptyString)
  | String c s' =>
      if stop c then (EmptyString, s)
      else let '(pre, rest) := break_at stop s' in (String c pre, rest)
  end.

Definition is_char (n : nat) (c : ascii) : bool := (nat_of_ascii c =? n)%nat.

Fixpoint forall_chars (p : ascii -> bool) (s : string) : bool :=
  match s with
  | EmptyString => true
  | String c s' => p c && forall_chars p s'
  end.

Definition contains_char (n : nat) (s : string) : bool :=
  negb (forall_chars (fun c => negb (is_char n c)) s).

Definition split_scheme (url : string) : string * string :=
  match break_at (is_char 58) url with
  | (String c pre, String _ rest) =>
      if is_alpha c && forall_chars is_scheme_char (String c pre)
      then (lower (String c pre), rest) else (EmptyString, url)
  | _ => (EmptyString, url)
  end.

Definition urlparse_scheme (url : string) : outcome string :=
  let url := remove_unsafe (lstrip_c0 url) in
  let '(scheme, url) := split_scheme url in
  match url with
  | String "/" (String "/" after) =>
      let netloc :=
        fst (break_at (fun c => is_char 47 c || is_char 63 c || is_char 35 c)
                      after) in
      if xorb (contains_char 91 netloc) (contains_char 93 netloc)
      then Raised "Invalid IPv6 URL" else Returned scheme
  | _ => Returned scheme
  end.

Record analysis : Type := {
  a_emails : list string;
  a_phones_website : list string;
  a_https : bool;
  a_has_viewport : bool;
  a_html_length : Z;
  a_has_title : bool;
  a_has_cta : bool;
  a_error : option string
}.

(** The initial [result] of [analyze_website], also the literal that
    [process_businesses] uses for a business without a website. *)
Definition default_analysis : analysis :=
  {| a_emails := []; a_phones_website := []; a_https := false;
     a_has_viewport := false; a_html_length := 0; a_has_title := false;
     a_has_cta := false; a_error := None |}.

(** The events of the call and what it returns or raises. *)
Definition analyze_website (w : world) (url : option string)
    : list event * outcome analysis :=
  let result := default_analysis in
  match url with
  | None => ([], Returned result)
  | Some url =>
      if negb (truthy_str url) then ([], Returned result)
      else
        let url := if startswith url "//" then String.append "https:" url
                   else url in
        match urlparse_scheme url with
        | Raised msg => ([], Raised msg)
        | Returned scheme =>
            let url := if negb (truthy_str scheme)
                       then String.append "http://" url else url in
            let https := startswith (lower url) "https://" in
            match http_get w url with
            | HttpError msg =>
                ([EvFetch url],
                 Returned {| a_emails := []; a_phones_website := [];
                             a_https := https; a_has_viewport := false;
                             a_html_length := 0; a_has_title := false;
                             a_has_cta := false; a_error := Some msg |})
            | HttpBody html =>
                match parse_page html with
                | Raised msg => ([EvFetch url], Raised msg)
                | Returned ps =>
                    ([EvFetch url],
                     Returned {| a_emails := ps_emails ps;
                                 a_phones_website := ps_phones ps;
                                 a_https := https;
                                 a_has_viewport := ps_has_viewport ps;
                                 a_html_length :=
                                   Z.of_nat (String.length html);
                                 a_has_title := ps_has_title ps;
                                 a_has_cta := ps_has_cta ps;
                                 a_error := None |})
                end
            end
        end
  end.

(** *** [process_businesses] *)

Record entry : Type := {
  e_business_name : option string;
  e_place_id : option string;
  e_address : option string;
  e_phone_google : option string;
  e_website : option string;
  e_rating : pyval;
  e_user_ratings_total : pyval
}.

Record lead_row : Type := {
  r_business_name : option string;
  r_address : option string;
  r_phone_google : option string;
  r_phone_website : option string;
  r_email : option string;
  r_website : option string;
  r_rating : pyval;
  r_user_ratings_total : pyval;
  r_https : bool;
  r_has_viewport : bool;
  r_html_length : Z;
  r_lead_score : Z
}.

(** Body of the first loop: one Place Details call, then the pause. *)
Definition enrich_one (w : world) (api_key : option string) (b : business)
    : entry * list event :=
  let place_id := b_place_id b in
  let details := get_place_details w place_id in
  ({| e_business_name := b_business_name b;
      e_place_id := place_id;
      e_address := py_or (d_address details) (b_address b);
      e_phone_google := d_phone_google details;
      e_website := d_website details;
      e_rating := b_rating b;
      e_user_ratings_total := b_user_ratings_total b |},
   [EvDetails place_id api_key; EvSleep PLACES_SLEEP]).

Fixpoint enrich (w : world) (api_key : option string)
    (businesses : list business) : list entry * list event :=
  match businesses with
  | [] => ([], [])
  | b :: businesses' =>
      let '(e, evs) := enrich_one w api_key b in
      let '(enriched, evs') := enrich w api_key businesses' in
      (e :: enriched, evs ++ evs')
  end.

(** [e.get("website") or e.get("business_name")] *)
Definition dedup_key (e : entry) : option string :=
  py_or (e_website e) (e_business_name e).

(** Body of [for e in enriched]. *)
Definition dedup_step (unique : dict (option string) entry) (e : entry)
    : dict (option string) entry :=
  let key := dedup_key e in
  if dict_in key unique then unique else dict_set unique key e.

(** [businesses_unique] *)
Definition deduplicate (enriched : list entry) : list entry :=
  dict_values (fold_left dedup_step enriched []).

(** The task submitted for [b]: [analyze_website] on its website, or the
    constant default when it has none. *)
Definition submit (w : world) (b : entry) : list event * outcome analysis :=
  let url := e_website b in
  if truthy_opt url then analyze_website w url
  else ([], Returned default_analysis).

(** Body of [for fut in as_completed(future_map)]. *)
Definition collect (analyses : dict (option string) analysis)
    (done : entry * outcome analysis) : dict (option string) analysis :=
  let '(b, res) := done in
  match res with
  | Returned a => dict_set analyses (e_place_id b) a
  | Raised msg =>
      dict_set analyses (e_place_id b)
        {| a_emails := []; a_phones_website := []; a_https := false;
           a_has_viewport := false; a_html_length := 0;
           a_has_title := false; a_has_cta := false; a_error := Some msg |}
  end.

Definition analyze_all (w : world) (businesses_unique : list entry)
    : dict (option string) analysis * list event :=
  let futures := map (fun b => (b, submit w b)) businesses_unique in
  (fold_left collect
     (as_completed w _ (map (fun f => (fst f, snd (snd f))) futures)) [],
   concat (map (fun f => fst (snd f)) futures)).

(** [";".join(l) if l else None] *)
Definition join_or_none (l : list string) : option string :=
  if truthy_list l then Some (String.concat ";" l) else None.

(** The row built for [b] once its identifier has been claimed.
    [analyses.get(place_id, {})] followed by [a.get(field, default)] reads
    the fields of [default_analysis] when the identifier has no entry. *)
Definition make_row (analyses : dict (option string) analysis) (b : entry)
    : lead_row :=
  let a := default default_analysis (dict_get analyses (e_place_id b)) in
  let has_website := truthy_opt (e_website b) in
  let lead_score :=
    score_lead has_website (a_https a) (a_has_viewport a)
               (VInt (a_html_length a)) (a_emails a) (a_has_cta a)
               (e_rating b) (e_user_ratings_total b) in
  {| r_business_name := e_business_name b;
     r_address := e_address b;
     r_phone_google := e_phone_google b;
     r_phone_website := join_or_none (a_phones_website a);
     r_email := join_or_none (a_emails a);
     r_website := e_website b;
     r_rating := e_rating b;
     r_user_ratings_total := e_user_ratings_total b;
     r_https := a_https a;
     r_has_viewport := a_has_viewport a;
     r_html_length := a_html_length a;
     r_lead_score := lead_score |}.

(** The last loop, [for b in businesses_unique], threading the shared
    identifier set. *)
Fixpoint build_rows (analyses : dict (option string) analysis)
    (businesses_unique : list entry) (existing_ids : gset string)
    : list lead_row * gset string :=
  match businesses_unique with
  | [] => ([], existing_ids)
  | b :: rest =>
      match e_place_id b with
      | None => build_rows analyses rest existing_ids
      | Some place_id =>
          if negb (truthy_str place_id) then
            build_rows analyses rest existing_ids
          else
            let '(fresh, existing_ids) :=
              is_new_place place_id existing_ids in
            if negb fresh then build_rows analyses rest existing_ids
            else
              let '(rows, existing_ids) :=
                build_rows analyses rest existing_ids in
              (make_row analyses b :: rows, existing_ids)
      end
  end.

Definition process_businesses (w : world) (businesses : list business)
    (api_key : option string) (existing_ids : gset string)
    : list lead_row * gset string * list event :=
  let '(enriched, evs) := enrich w api_key businesses in
  let businesses_unique := deduplicate enriched in
  let '(analyses, evs') := analyze_all w businesses_unique in
  let '(rows, existing_ids) :=
    build_rows analyses businesses_unique existing_ids in
  (rows, existing_ids, evs ++ evs').

(** *** [save_results] *)

Definition row_columns : list string :=
  ["business_name"; "address"; "phone_google"; "phone_website"; "email";
   "website"; "rating"; "user_ratings_total"; "https"; "has_viewport";
   "html_length"; "lead_score"].

Definition opt_cell (o : option string) : cell :=
  match o with Some s => VStr s | None => VNone end.

Definition row_cells (r : lead_row) : list cell :=
  [opt_cell (r_business_name r); opt_cell (r_address r);
   opt_cell (r_phone_google r); opt_cell (r_phone_website r);
   opt_cell (r_email r); opt_cell (r_website r); r_rating r;
   r_user_ratings_total r; VBool (r_https r); VBool (r_has_viewport r);
   VInt (r_html_length r); VInt (r_lead_score r)].

(** [pd.DataFrame()] *)
Definition empty_frame : DataFrame := {| df_columns := []; df_rows := [] |}.

(** [pd.DataFrame(rows)]: the columns are the keys of the row dicts, and
    there are none when the list is empty. *)
Definition frame_of_rows (rows : list lead_row) : DataFrame :=
  match rows with
  | [] => empty_frame
  | _ => {| df_columns := row_columns; df_rows := map row_cells rows |}
  end.

(** [pd.read_csv(csv_path)] *)
Definition read_csv (csv_path : store_file) : raises DataFrame :=
  match csv_path with
  | Table df => Some df
  | _ => None
  end.

Definition frame_empty (df : DataFrame) : bool :=
  negb (truthy_list (df_columns df)) || negb (truthy_list (df_rows df)).

Definition has_column (c : string) (df : DataFrame) : bool :=
  existsb (String.eqb c) (df_columns df).

Definition get_cell (cols : list string) (r : list cell) (c : string)
    : cell :=
  default VNone (dict_get (combine cols r) c).

(** [pd.concat([df_old, df_new], ignore_index=True)]: the union of the
    columns, a missing value where a frame lacks one. *)
Definition concat_frames (df_old df_new : DataFrame) : DataFrame :=
  let cols :=
    df_columns df_old
    ++ List.filter (fun c => negb (has_column c df_old))
                   (df_columns df_new) in
  {| df_columns := cols;
     df_rows :=
       map (fun r => map (get_cell (df_columns df_old) r) cols)
           (df_rows df_old)
       ++ map (fun r => map (get_cell (df_columns df_new) r) cols)
              (df_rows df_new) |}.

Definition float_eqb (f g : pyfloat) : bool :=
  match f, g with
  | FNaN, FNaN => true
  | FInf a, FInf b => Bool.eqb a b
  | FFin p, FFin q => Qeq_bool p q
  | _, _ => false
  end.

(** Equality of cells as [drop_duplicates] sees it: missing values are
    equal to each other. *)
Definition cell_eqb (x y : cell) : bool :=
  match x, y with
  | VNone, VNone => true
  | VBool a, VBool b => Bool.eqb a b
  | VInt a, VInt b => a =? b
  | VFloat f, VFloat g => float_eqb f g
  | VStr a, VStr b => String.eqb a b
  | _, _ => false
  end.

Fixpoint key_eqb (k1 k2 : list cell) : bool :=
  match k1, k2 with
  | [], [] => true
  | x :: k1', y :: k2' => cell_eqb x y && key_eqb k1' k2'
  | _, _ => false
  end.

Fixpoint keep_first (cols subset : list string) (seen : list (list cell))
    (rs : list (list cell)) : list (list cell) :=
  match rs with
  | [] => []
  | r :: rs' =>
      let k := map (get_cell cols r) subset in
      if existsb (key_eqb k) seen then keep_first cols subset seen rs'
      else r :: keep_first cols subset (k :: seen) rs'
  end.

(** [df.drop_duplicates(subset=..., keep="first")]; [KeyError] when a
    column of [subset] is not in the frame. *)
Definition drop_duplicates (subset : list string) (df : DataFrame)
    : raises DataFrame :=
  if forallb (fun c => has_column c df) subset then
    Some {| df_columns := df_columns df;
            df_rows := keep_first (df_columns df) subset [] (df_rows df) |}
  else None.

(** Rank of a [lead_score] cell; cells that are not finite numbers go
    last, where [pandas] puts missing values. *)
Definition rank (c : cell) : option Q :=
  match c with
  | VInt n => Some (inject_Z n)
  | VBool b => Some (inject_Z (Z.b2z b))
  | VFloat (FFin q) => Some q
  | _ => None
  end.

Definition rank_lt (a b : option Q) : bool :=
  match a, b with
  | Some x, Some y => Qltb x y
  | None, Some _ => true
  | _, None => false
  end.

Fixpoint insert_desc (key : list cell -> option Q) (r : list cell)
    (sorted : list (list cell)) : list (list cell) :=
  match sorted with
  | [] => [r]
  | x :: sorted' =>
      if rank_lt (key r) (key x) then x :: insert_desc key r sorted'
      else r :: sorted
  end.

(** [df.sort_values(by=..., ascending=False)]; [KeyError] when the
    column is not in the frame.  Rows of equal rank stay in their order
    (the library does not promise an order among them). *)
Definition sort_values (by_ : string) (df : DataFrame) : raises DataFrame :=
  if has_column by_ df then
    Some {| df_columns := df_columns df;
            df_rows :=
              fold_right
                (insert_desc (fun r => rank (get_cell (df_columns df) r by_)))
                [] (df_rows df) |}
  else None.

(** The content of [csv_path] after the call, or [None] when it raises. *)
Definition save_results (rows : list lead_row) (csv_path : store_file)
    : raises store_file :=
  let df_new := frame_of_rows rows in
  let save_new :=
    match sort_values "lead_score" df_new with
    | Some df_new => Some (Table df_new)
    | None => None
    end in
  if os_path_exists csv_path then
    let df_old :=
      match read_csv csv_path with
      | Some df => df
      | None => empty_frame
      end in
    if negb (frame_empty df_old) then
      let combined := concat_frames df_old df_new in
      let combined :=
        if has_column "website" combined then
          drop_duplicates ["website"; "business_name"] combined
        else drop_duplicates ["business_name"] combined in
      match combined with
      | None => None
      | Some combined =>
          match sort_values "lead_score" combined with
          | None => None
          | Some combined => Some (Table combined)
          end
      end
    else save_new
  else save_new.

(** *** [main] and the script around it *)

Inductive run_result : Type :=
| OutOfFuel
| Crashed (events : list event)
| Finished (events : list event) (rows : list lead_row)
           (csv : store_file).

(** [GOOGLE_API_KEY == "YOUR_GOOGLE_API_KEY"], on the value of
    [os.getenv], which is [None] for a variable that is not set. *)
Definition is_placeholder (key : option string) : bool :=
  match key with
  | Some k => String.eqb k "YOUR_GOOGLE_API_KEY"
  | None => false
  end.

Definition main (fuel : nat) (w : world) (GOOGLE_API_KEY : option string)
    (existing_place_ids : gset string) (CSV_OUTPUT : store_file)
    : run_result :=
  if is_placeholder GOOGLE_API_KEY then Finished [] [] CSV_OUTPUT
  else
    match get_places fuel w LOCATION SEARCH_RADIUS KEYWORDS GOOGLE_API_KEY
    with
    | None => OutOfFuel
    | Some (places, evs) =>
        if negb (truthy_list places) then Finished evs [] CSV_OUTPUT
        else
          let '(rows, _, evs') :=
            process_businesses w places GOOGLE_API_KEY existing_place_ids in
          match save_results rows CSV_OUTPUT with
          | None => Crashed (evs ++ evs')
          | Some csv => Finished (evs ++ evs') rows csv
          end
    end.

(** Running the script: the module body loads the identifier set from the
    store, then [main] runs. *)
Definition script (fuel : nat) (w : world) (GOOGLE_API_KEY : option string)
    (CSV_OUTPUT : store_file) : run_result :=
  match load_existing_place_ids CSV_OUTPUT with
  | None => Crashed []
  | Some existing_place_ids =>
      main fuel w GOOGLE_API_KEY existing_place_ids CSV_OUTPUT
  end.

(** *** The post-processing loops of [analyze_website]

    The two regular expressions are the library's; what the function does
    with their matches is below, with the list of matches as input. *)

(** [s.endswith(suffix)] *)
Definition endswith (s suffix : string) : bool :=
  let n := String.length s in
  let m := String.length suffix in
  (m <=? n)%nat && String.eqb (substring (n - m) m s) suffix.

(** [pat in s] *)
Fixpoint contains (pat s : string) : bool :=
  String.prefix pat s
  || match s with
     | EmptyString => false
     | String _ s' => contains pat s'
     end.

(** [s.replace(pat, "")] for a non-empty [pat]: the occurrences of [pat]
    are dropped from left to right, without overlap; [skip] counts the
    characters of the current occurrence that remain to be dropped. *)
Fixpoint remove_all (pat : string) (skip : nat) (s : string) : string :=
  match s with
  | EmptyString => EmptyString
  | String c s' =>
      match skip with
      | S skip' => remove_all pat skip' s'
      | O =>
          if String.prefix pat s
          then remove_all pat (String.length pat - 1) s'
          else String c (remove_all pat 0 s')
      end
  end.

(** [sorted(set(l))]: the distinct strings of [l] in increasing order. *)
Fixpoint insert_sorted (x : string) (l : list string) : list string :=
  match l with
  | [] => [x]
  | y :: l' =>
      match String_as_OT.compare x y with
      | Lt => x :: l
      | Eq => l
      | Gt => y :: insert_sorted x l'
      end
  end.

Definition sorted_set (l : list string) : list string :=
  fold_right insert_sorted [] l.

Definition image_extensions : list string :=
  [".png"; ".jpg"; ".jpeg"; ".gif"; ".svg"].

(** Body of [for e in emails]. *)
Definition keep_email (filtered : list string) (e : string) : list string :=
  let low := lower e in
  if existsb (endswith low) image_extensions then filtered
  else
    let low := if contains "mailto:" low then remove_all "mailto:" 0 low
               else low in
    filtered ++ [low].

(** [result["emails"]], from the matches of the e-mail expression. *)
Definition filter_emails (emails : list string) : list string :=
  sorted_set (fold_left keep_email emails []).

(** [re.sub(r"[^0-9]", "", p)] *)
Fixpoint keep_digits (p : string) : string :=
  match p with
  | EmptyString => EmptyString
  | String c p' =>
      if in_range 48 57 c then String c (keep_digits p') else keep_digits p'
  end.

(** Body of [for p in phone_matches]: the number added to the set, if
    any. *)
Definition clean_phone (p : string) : option string :=
  let digits := keep_digits p in
  let digits :=
    if (String.length digits =? 11)%nat && startswith digits "1"
    then substring 1 (String.length digits - 1) digits
    else digits in
  if (String.length digits =? 10)%nat then
    Some (String.append "(+1) "
            (String.append (substring 0 3 digits)
               (String.append "-"
                  (String.append (substring 3 3 digits)
                     (String.append "-" (substring 6 4 digits))))))
  else None.

(** [result["phones_website"]], from the matches of the phone
    expression. *)
Definition clean_phones (phone_matches : list string) : list string :=
  sorted_set (omap clean_phone phone_matches).

End Pipeline.

Section Policy.

Context `{Runtime}.

(** ** The scoring policy in the words of the specification *)

Definition points (weight : Z) (signal : bool) : Z :=
  if signal then weight else 0.

(** A guarded test adds its points when it holds and when it raises. *)
Definition holds_or_raises (t : raises bool) : bool :=
  match t with Some c => c | None => true end.

(** The page length is a number below [k]. *)
Definition length_below (html_length : pyval) (k : Z) : bool :=
  match html_length with
  | VBool b => Z.b2z b <? k
  | VInt n => n <? k
  | VFloat f => float_lt f (inject_Z k)
  | VNone | VStr _ => false
  end.

(** The page length is unavailable ([None]) or not a number. *)
Definition length_unavailable (html_length : pyval) : bool :=
  match html_length with
  | VNone | VStr _ => true
  | _ => false
  end.

Definition short_page (html_length : pyval) : bool :=
  length_below html_length 5000 || length_unavailable html_length.

(** The rating is missing, or cannot be read as a float, or reads as a
    float below 4.5. *)
Definition low_rating (rating : pyval) : bool :=
  match rating with
  | VNone => true
  | _ => match py_float rating with
         | None => true
         | Some f => float_lt f (9 # 2)
         end
  end.

(** The review count is missing, or cannot be read as an integer, or reads
    as an integer below 15. *)
Definition low_reviews (user_ratings_total : pyval) : bool :=
  match user_ratings_total with
  | VNone => true
  | _ => match py_int user_ratings_total with
         | None => true
         | Some n => n <? 15
         end
  end.

Definition no_emails (emails : list string) : bool :=
  match emails with [] => true | _ => false end.

Definition policy_score (has_website https has_viewport : bool)
    (html_length : pyval) (emails : list string) (has_cta : bool)
    (rating user_ratings_total : pyval) : Z :=
  if has_website then
    points 5 (negb https) + points 3 (negb has_viewport)
    + points 3 (short_page html_length) + points 2 (no_emails emails)
    + points 2 (negb has_cta) + points 1 (low_rating rating)
    + points 1 (low_reviews user_ratings_total)
  else 10.

(** The scorer's arguments as one value, and the seven negative signals. *)
Record scorer_input : Type := {
  in_has_website : bool;
  in_https : bool;
  in_has_viewport : bool;
  in_html_length : pyval;
  in_emails : list string;
  in_has_cta : bool;
  in_rating : pyval;
  in_user_ratings_total : pyval
}.

Definition score (x : scorer_input) : Z :=
  score_lead (in_has_website x) (in_https x) (in_has_viewport x)
             (in_html_length x) (in_emails x) (in_has_cta x) (in_rating x)
             (in_user_ratings_total x).

Inductive signal : Type :=
| NoHttps | NoViewport | ShortPage | NoEmails | NoCta | LowRating | LowReviews.

(** The signal is at its bad value in [x]. *)
Definition bad (s : signal) (x : scorer_input) : bool :=
  match s with
  | NoHttps => negb (in_https x)
  | NoViewport => negb (in_has_viewport x)
  | ShortPage => short_page (in_html_length x)
  | NoEmails => no_emails (in_emails x)
  | NoCta => negb (in_has_cta x)
  | LowRating => low_rating (in_rating x)
  | LowReviews => low_reviews (in_user_ratings_total x)
  end.

Definition weight (s : signal) : Z :=
  match s with
  | NoHttps => 5
  | NoViewport | ShortPage => 3
  | NoEmails | NoCta => 2
  | LowRating | LowReviews => 1
  end.

(** [x] and [y] agree on every argument other than the one that carries
    signal [s]. *)
Definition same_except (s : signal) (x y : scorer_input) : Prop :=
  in_has_website x = in_has_website y
  /\ (s <> NoHttps -> in_https x = in_https y)
  /\ (s <> NoViewport -> in_has_viewport x = in_has_viewport y)
  /\ (s <> ShortPage -> in_html_length x = in_html_length y)
  /\ (s <> NoEmails -> in_emails x = in_emails y)
  /\ (s <> NoCta -> in_has_cta x = in_has_cta y)
  /\ (s <> LowRating -> in_rating x = in_rating y)
  /\ (s <> LowReviews -> in_user_ratings_total x = in_user_ratings_total y).

(** ** The failure path of the contact extractor *)

(** The analysis with every field at its default except the scheme flag
    and the error text. *)
Definition failed_analysis (https : bool) (msg : string) : analysis :=
  {| a_emails := []; a_phones_website := []; a_https := https;
     a_has_viewport := false; a_html_length := 0; a_has_title := false;
     a_has_cta := false; a_error := Some msg |}.

(** The call on [url] fetched [u], and that fetch failed with [msg]. *)
Definition fetch_failed (w : world) (url : option string) (u msg : string)
    : Prop :=
  fst (analyze_website w url) = [EvFetch u] /\ http_get w u = HttpError msg.

(** The reading of the failure path in which every field other than the
    error is at its default. *)
Definition all_default_on_failure (w : world) (url : option string) : Prop :=
  forall u msg, fetch_failed w url u msg ->
    snd (analyze_website w url) = Returned (failed_analysis false msg).

(** ** In-batch deduplication in the words of the specification *)

(** A value that is absent or the empty string. *)
Definition blank (o : option string) : bool := negb (truthy_opt o).

(** Website and business name both absent or empty. *)
Definition nameless (e : entry) : bool :=
  blank (e_website e) && blank (e_business_name e).

(** No usable website, and the business name is exactly [n]. *)
Definition nameless_as (n : option string) (e : entry) : bool :=
  blank (e_website e) && bool_decide (e_business_name e = n).

(** The reading in which all nameless entries of a batch share one key, so
    that at most one of them is left after deduplication. *)
Definition nameless_collapse (batch : list entry) : Prop :=
  (forall e1 e2, In e1 batch -> In e2 batch ->
     nameless e1 = true -> nameless e2 = true -> dedup_key e1 = dedup_key e2)
  /\ (length (List.filter nameless (deduplicate batch)) <= 1)%nat.

(** The entries kept by a first-occurrence-wins pass over [l], given the
    keys [seen] before it. *)
Fixpoint firsts (seen : list (option string)) (l : list entry) : list entry :=
  match l with
  | [] => []
  | e :: l' =>
      if bool_decide (dedup_key e ∈ seen) then firsts seen l'
      else e :: firsts (dedup_key e :: seen) l'
  end.

(** ** Pagination in the words of the specification *)

(** The response ends the chain: the request failed or the page carries no
    usable continuation token. *)
Definition stops (r : search_response) : bool :=
  match r with
  | SearchFailed => true
  | SearchPage _ next_page_token => negb (truthy_opt next_page_token)
  end.

Definition token_of (r : search_response) : string :=
  match r with
  | SearchPage _ (Some tok) => tok
  | _ => ""
  end.

(** The continuation tokens of the [m] responses from the [k]-th on. *)
Fixpoint tokens_from (w : world) (k m : nat) : list string :=
  match m with
  | O => []
  | S m' => token_of (nearby_search w k) :: tokens_from w (S k) m'
  end.

(** A first request, then for each token the pause followed by the
    request that carries the token. *)
Definition chain (api_key : option string) (params : search_params)
    (toks : list string) : list event :=
  EvSearch params
  :: flat_map (fun tok => [EvSleep PLACES_SLEEP;
                           EvSearch (PageToken tok api_key)]) toks.

Definition is_requery (e : event) : bool :=
  match e with EvSearch (PageToken _ _) => true | _ => false end.

Definition is_sleep (e : event) : bool :=
  match e with EvSleep _ => true | _ => false end.

Definition is_search (e : event) : bool :=
  match e with EvSearch _ => true | _ => false end.

Definition count (p : event -> bool) (evs : list event) : nat :=
  length (List.filter p evs).

(** Every request that carries a token comes directly after the fixed
    pause; [prev] is the event before [evs]. *)
Fixpoint delayed (prev : option event) (evs : list event) : bool :=
  match evs with
  | [] => true
  | e :: evs' =>
      (if is_requery e then
         match prev with
         | Some (EvSleep s) => s =? PLACES_SLEEP
         | _ => false
         end
       else true)
      && delayed (Some e) evs'
  end.

(** ** Row assembly in the words of the specification *)

(** The businesses for which the last loop of [process_businesses] builds a
    row: those with a usable identifier that is not yet in the set, the set
    growing by each identifier claimed. *)
Fixpoint claimed (businesses_unique : list entry) (existing_ids : gset string)
    : list entry :=
  match businesses_unique with
  | [] => []
  | b :: rest =>
      match e_place_id b with
      | Some p =>
          if truthy_str p && bool_decide (p ∉ existing_ids)
          then b :: claimed rest (existing_ids ∪ {[ p ]})
          else claimed rest existing_ids
      | None => claimed rest existing_ids
      end
  end.

(** ** Concrete worlds *)

(** No network: every request fails. *)
Definition offline : world :=
  {| nearby_search := fun _ => SearchFailed;
     place_details := fun _ => None;
     http_get := fun _ => HttpError "timed out";
     as_completed := fun _ l => l |}.

(** Three pages for the first keyword, with tokens [T1], [T2] and none. *)
Definition three_pages : world :=
  {| nearby_search := fun k =>
       match k with
       | 0%nat => SearchPage [] (Some "T1")
       | 1%nat => SearchPage [] (Some "T2")
       | _ => SearchPage [] None
       end;
     place_details := fun _ => None;
     http_get := fun _ => HttpError "timed out";
     as_completed := fun _ l => l |}.

(** A server that always hands out another token. *)
Definition endless : world :=
  {| nearby_search := fun _ => SearchPage [] (Some "T");
     place_details := fun _ => None;
     http_get := fun _ => HttpError "timed out";
     as_completed := fun _ l => l |}.

Definition acme : raw_place :=
  {| rp_place_id := Some "p1"; rp_name := Some "Acme";
     rp_rating := VFloat (FFin (3 # 1)); rp_user_ratings_total := VInt 5;
     rp_vicinity := Some "1 Main St"; rp_formatted_address := None |}.

(** One business, place [p1], found by the first keyword; Place Details
    knows the [website] given. *)
Definition town (website : option string) : world :=
  {| nearby_search := fun k =>
       match k with
       | 0%nat => SearchPage [acme] None
       | _ => SearchPage [] None
       end;
     place_details := fun _ =>
       Some {| d_website := website; d_phone_google := None;
               d_address := None |};
     http_get := fun _ => HttpError "timed out";
     as_completed := fun _ l => l |}.

(** A runtime in which no text reads as a number and pages carry no
    signals; the closed statements below do not reach it. *)
Definition plain_runtime : Runtime :=
  {| float_of_str := fun _ => None;
     int_of_str := fun _ => None;
     csv_text := fun c => match c with VStr s => s | _ => "" end;
     parse_page := fun _ =>
       Returned {| ps_has_title := false; ps_has_viewport := false;
                   ps_emails := []; ps_phones := []; ps_has_cta := false |} |}.

Definition acme_row (website : option string) (lead_score : Z) : lead_row :=
  {| r_business_name := Some "Acme"; r_address := Some "1 Main St";
     r_phone_google := None; r_phone_website := None; r_email := None;
     r_website := website; r_rating := VFloat (FFin (3 # 1));
     r_user_ratings_total := VInt 5; r_https := false;
     r_has_viewport := false; r_html_length := 0;
     r_lead_score := lead_score |}.

(** The events of a run over [town]: one search per keyword, then the
    details call for [p1] and the pause. *)
Definition town_events (key : option string) : list event :=
  [EvSearch (Nearby LOCATION SEARCH_RADIUS "landscaping" key);
   EvSearch (Nearby LOCATION SEARCH_RADIUS "house cleaning" key);
   EvDetails (Some "p1") key; EvSleep PLACES_SLEEP].

(** The table a first run over [town None] writes. *)
Definition first_store : DataFrame :=
  {| df_columns := row_columns; df_rows := [row_cells (acme_row None 10)] |}.

(** The table after a later run in which Place Details has learned the
    website of the same place. *)
Definition second_store : DataFrame :=
  {| df_columns := row_columns;
     df_rows := [row_cells (acme_row (Some "http://acme.example") 17);
                 row_cells (acme_row None 10)] |}.

(** The store has no [place_id] column to read identifiers from. *)
Definition no_place_id (csv : store_file) : Prop :=
  match csv with
  | Table df => has_column "place_id" df = false
  | _ => True
  end.

(** ** Concrete inputs *)

(** A scorer input with a website, parameterised by its HTTPS flag. *)
Definition sample_input (https : bool) : scorer_input :=
  {| in_has_website := true; in_https := https; in_has_viewport := true;
     in_html_length := VInt 800; in_emails := ["contact@example.com"];
     in_has_cta := false; in_rating := VFloat (FFin (3 # 1));
     in_user_ratings_total := VInt 5 |}.

(** The same input for a business without a website. *)
Definition sample_without_website : scorer_input :=
  {| in_has_website := false; in_https := false; in_has_viewport := true;
     in_html_length := VInt 800; in_emails := ["contact@example.com"];
     in_has_cta := false; in_rating := VFloat (FFin (3 # 1));
     in_user_ratings_total := VInt 5 |}.

(** An enriched business without a website, under the given name. *)
Definition nameless_entry (place_id : string) (name : option string) : entry :=
  {| e_business_name := name; e_place_id := Some place_id;
     e_address := None; e_phone_google := None; e_website := None;
     e_rating := VNone; e_user_ratings_total := VNone |}.

(** Two businesses without a website, one whose name is absent and one
    whose name is the empty string. *)
Definition nameless_batch : list entry :=
  [nameless_entry "p1" None; nameless_entry "p2" (Some "")].

(** ** The search result in the words of the source *)

(** The mapping built by [get_places] is keyed by the identifier of each
    place, a non-empty string, and holds each key once. *)
Definition places_ok (places : dict string business) : Prop :=
  NoDup (map fst places)
  /\ Forall (fun kv => b_place_id (snd kv) = Some (fst kv)
                       /\ truthy_str (fst kv) = true) places.

(** The first request of a keyword's chain. *)
Definition is_first_query (e : event) : bool :=
  match e with EvSearch (Nearby _ _ _ _) => true | _ => false end.

Definition is_details (e : event) : bool :=
  match e with EvDetails _ _ => true | _ => false end.

Definition is_fetch (e : event) : bool :=
  match e with EvFetch _ => true | _ => false end.

(** The candidate and the enriched business of place [p1]. *)
Definition acme_business : business :=
  {| b_business_name := Some "Acme"; b_place_id := Some "p1";
     b_rating := VFloat (FFin (3 # 1)); b_user_ratings_total := VInt 5;
     b_address := Some "1 Main St" |}.


(** ** The result store in the words of the source *)








End Policy.

Section Properties.

Context `{Runtime}.

(** ** Properties of the duplicate filter *)

(** C9: for every set [S] and identifier [p], [is_new_place] answers true
    exactly when [p] was absent from [S] and then leaves [S] with [p]
    inserted; when [p] was present it answers false and leaves [S] as it
    was. *)
Theorem is_new_place_check_and_insert (S : gset string) (p : string) :
  (fst (is_new_place p S) = true <-> p ∉ S)
  /\ (p ∉ S -> is_new_place p S = (true, S ∪ {[ p ]})
               /\ p ∈ snd (is_new_place p S))
  /\ (p ∈ S -> is_new_place p S = (false, S)).
Proof.
  unfold is_new_place.
  destruct (bool_decide_reflect (p ∈ S)) as [Hin | Hout]; cbn.
  - split; [split; [discriminate | tauto] | split; [tauto | trivial]].
  - split; [tauto | split; [intros _; split; [reflexivity | set_solver] | tauto]].
Qed.

(** ** Properties of the lead scorer *)

Lemma guarded_points (t : raises bool) (score w : Z) :
  match t with
  | Some c => if c then score + w else score
  | None => score + w
  end = score + points w (holds_or_raises t).
Proof. destruct t as [[|]|]; cbn; lia. Qed.

Lemma plain_points (c : bool) (score w : Z) :
  (if c then score + w else score) = score + points w c.
Proof. destruct c; cbn; lia. Qed.

Lemma length_test_short (html_length : pyval) :
  holds_or_raises (py_lt_int html_length 5000) = short_page html_length.
Proof.
  unfold short_page.
  destruct html_length; cbn; rewrite ?orb_false_r; reflexivity.
Qed.

Lemma rating_test_low (rating : pyval) :
  holds_or_raises (rating_test rating) = low_rating rating.
Proof.
  unfold rating_test, low_rating.
  destruct rating; cbn [is_none]; try reflexivity;
    destruct (py_float _); reflexivity.
Qed.

Lemma reviews_test_low (user_ratings_total : pyval) :
  holds_or_raises (reviews_test user_ratings_total)
  = low_reviews user_ratings_total.
Proof.
  unfold reviews_test, low_reviews.
  destruct user_ratings_total; cbn [is_none]; try reflexivity;
    destruct (py_int _); reflexivity.
Qed.

Lemma truthy_list_no_emails (emails : list string) :
  negb (truthy_list emails) = no_emails emails.
Proof. destruct emails; reflexivity. Qed.

Lemma score_lead_eq_policy has_website https has_viewport html_length emails
    has_cta rating user_ratings_total :
  score_lead has_website https has_viewport html_length emails has_cta
             rating user_ratings_total
  = policy_score has_website https has_viewport html_length emails has_cta
                 rating user_ratings_total.
Proof.
  unfold score_lead, policy_score.
  destruct has_website; cbn [negb]; [| reflexivity].
  rewrite !guarded_points, !plain_points.
  rewrite length_test_short, rating_test_low, reviews_test_low,
    truthy_list_no_emails.
  lia.
Qed.

Lemma points_bounds (w : Z) (b : bool) : 0 <= w -> 0 <= points w b <= w.
Proof. destruct b; cbn; lia. Qed.

(** C2: for every input the scorer returns 10 when there is no website, and
    otherwise the sum of +5 (not HTTPS), +3 (no viewport), +3 (page length
    below 5000 or unavailable), +2 (no emails), +2 (no call to action), +1
    (rating missing, unparseable or below 4.5) and +1 (review count missing,
    unparseable or below 15); the score never exceeds 17. *)
Theorem score_lead_policy has_website https has_viewport html_length emails
    has_cta rating user_ratings_total :
  score_lead has_website https has_viewport html_length emails has_cta
             rating user_ratings_total
  = (if has_website then
       points 5 (negb https) + points 3 (negb has_viewport)
       + points 3 (short_page html_length) + points 2 (no_emails emails)
       + points 2 (negb has_cta) + points 1 (low_rating rating)
       + points 1 (low_reviews user_ratings_total)
     else 10)
  /\ 0 <= score_lead has_website https has_viewport html_length emails
                     has_cta rating user_ratings_total <= 17.
Proof.
  rewrite score_lead_eq_policy. unfold policy_score. split; [reflexivity |].
  destruct has_website; [| lia].
  pose proof (points_bounds 5 (negb https)).
  pose proof (points_bounds 3 (negb has_viewport)).
  pose proof (points_bounds 3 (short_page html_length)).
  pose proof (points_bounds 2 (no_emails emails)).
  pose proof (points_bounds 2 (negb has_cta)).
  pose proof (points_bounds 1 (low_rating rating)).
  pose proof (points_bounds 1 (low_reviews user_ratings_total)).
  lia.
Qed.

(** C3: website present, not HTTPS, no viewport tag, page length 800, one
    e-mail address found, no call-to-action keyword, rating 3.0 and five
    reviews score exactly 15. *)
Theorem score_lead_end_to_end_case :
  score_lead true false false (VInt 800) ["contact@example.com"] false
             (VFloat (FFin (3 # 1))) (VInt 5) = 15.
Proof. reflexivity. Qed.

Lemma score_flip_adds_weight (s : signal) (x y : scorer_input) :
  in_has_website x = true -> same_except s x y ->
  bad s x = false -> bad s y = true -> score y = score x + weight s.
Proof.
  intros Hweb (Hw & Hh & Hv & Hl & He & Hc & Hr & Hu) Hgood Hbad.
  unfold score. rewrite !score_lead_eq_policy. unfold policy_score.
  rewrite <- Hw, Hweb.
  destruct s; cbn [bad weight] in *;
    rewrite Hgood, Hbad;
    try rewrite <- Hh by discriminate; try rewrite <- Hv by discriminate;
    try rewrite <- Hl by discriminate; try rewrite <- He by discriminate;
    try rewrite <- Hc by discriminate; try rewrite <- Hr by discriminate;
    try rewrite <- Hu by discriminate; cbn [points]; lia.
Qed.

(** C4: the scorer is monotonic.  For two inputs with a website that differ
    only in one signal, good in the first and bad in the second (no HTTPS,
    no viewport, short page, no emails, no call to action, low rating, low
    review count), the second scores at least as much as the first; and an
    input without a website scores exactly 10 whatever its other
    arguments. *)
Theorem score_monotonic :
  (forall (s : signal) (x y : scorer_input),
      in_has_website x = true -> same_except s x y ->
      bad s x = false -> bad s y = true -> score x <= score y)
  /\ (forall x : scorer_input, in_has_website x = false -> score x = 10).
Proof.
  split.
  - intros s x y Hweb Hsame Hgood Hbad.
    rewrite (score_flip_adds_weight s x y Hweb Hsame Hgood Hbad).
    destruct s; cbn; lia.
  - intros x Hweb. unfold score, score_lead. rewrite Hweb. reflexivity.
Qed.

(** ** Properties of the contact extractor *)

(** C5 (amended): for every URL, when the fetch made by [analyze_website]
    fails, the call returns (it does not raise) an analysis whose error is
    the failure's text, whose HTTPS flag is the one read off the scheme of
    the normalized URL that was fetched, and whose other fields are at
    their defaults. *)
Theorem analyze_website_fetch_failure (w : world) (url : option string)
    (u msg : string) :
  fst (analyze_website w url) = [EvFetch u] ->
  http_get w u = HttpError msg ->
  snd (analyze_website w url)
  = Returned (failed_analysis (startswith (lower u) "https://") msg).
Proof.
  unfold analyze_website, failed_analysis.
  destruct url as [url |]; [| discriminate].
  destruct (truthy_str url); cbn [negb]; [| discriminate].
  destruct (urlparse_scheme _) as [e | scheme]; [discriminate |].
  set (fetched := if negb (truthy_str scheme) then _ else _).
  destruct (http_get w fetched) as [msg' | html] eqn:Hget.
  - cbn. intros [= <-] Hfail. rewrite Hget in Hfail.
    injection Hfail as ->. reflexivity.
  - destruct (parse_page html); cbn; intros [= <-] Hfail; congruence.
Qed.

(** ** Properties of the in-batch deduplication *)

Lemma dict_in_keys {K V} `{EqDecision K} (k : K) (d : dict K V) :
  dict_in k d = true <-> k ∈ map fst d.
Proof.
  unfold dict_in. induction d as [| [k' v] d IH]; cbn.
  - split; [discriminate | intros Hin; inversion Hin].
  - destruct (decide (k' = k)) as [-> | Hne].
    + split; [intros _; left | reflexivity].
    + rewrite IH. split; [intros Hin; right; exact Hin |].
      intros Hin. inversion Hin; subst; [congruence | assumption].
Qed.

Lemma dict_set_fresh {K V} `{EqDecision K} (k : K) (v : V) (d : dict K V) :
  dict_in k d = false -> dict_set d k v = d ++ [(k, v)].
Proof.
  unfold dict_in. induction d as [| [k' v'] d IH]; cbn; [reflexivity |].
  destruct (decide (k' = k)); [discriminate |].
  intros Hd. rewrite IH by exact Hd. reflexivity.
Qed.

Lemma firsts_ext (s1 s2 : list (option string)) (l : list entry) :
  (forall k, k ∈ s1 <-> k ∈ s2) -> firsts s1 l = firsts s2 l.
Proof.
  revert s1 s2. induction l as [| e l IH]; intros s1 s2 Heq; cbn;
    [reflexivity |].
  rewrite (bool_decide_ext _ _ (Heq (dedup_key e))).
  destruct (bool_decide (dedup_key e ∈ s2)).
  - apply IH, Heq.
  - f_equal. apply IH. intros k. rewrite !elem_of_cons, Heq. reflexivity.
Qed.

Lemma dedup_fold_firsts (l : list entry) (d : dict (option string) entry) :
  dict_values (fold_left dedup_step l d)
  = dict_values d ++ firsts (map fst d) l.
Proof.
  revert d. induction l as [| e l IH]; intros d; cbn [fold_left firsts].
  - rewrite app_nil_r. reflexivity.
  - rewrite IH. unfold dedup_step.
    destruct (dict_in (dedup_key e) d) eqn:Hin.
    + apply dict_in_keys in Hin. rewrite bool_decide_eq_true_2 by exact Hin.
      reflexivity.
    + rewrite dict_set_fresh by exact Hin.
      rewrite bool_decide_eq_false_2.
      2:{ intros Hk. apply dict_in_keys in Hk. congruence. }
      unfold dict_values. rewrite !map_app, <- app_assoc. cbn.
      do 2 f_equal. apply firsts_ext. intros k.
      rewrite elem_of_app, !elem_of_cons, elem_of_nil. tauto.
Qed.

(** The deduplication keeps, for each key, the first entry that has it. *)
Lemma deduplicate_firsts (l : list entry) : deduplicate l = firsts [] l.
Proof. unfold deduplicate. rewrite dedup_fold_firsts. reflexivity. Qed.

Lemma firsts_filter_key (k : option string) (seen : list (option string))
    (l : list entry) :
  List.filter (fun e => bool_decide (dedup_key e = k)) (firsts seen l)
  = if bool_decide (k ∈ seen) then []
    else take 1 (List.filter (fun e => bool_decide (dedup_key e = k)) l).
Proof.
  revert seen. induction l as [| e l IH]; intros seen; cbn.
  - destruct (bool_decide (k ∈ seen)); reflexivity.
  - destruct (bool_decide_reflect (dedup_key e ∈ seen)) as [Hseen | Hnew].
    + rewrite IH.
      destruct (bool_decide_reflect (k ∈ seen)) as [Hk | Hk]; [reflexivity |].
      rewrite bool_decide_eq_false_2 by congruence. reflexivity.
    + cbn. rewrite IH.
      destruct (bool_decide_reflect (dedup_key e = k)) as [Hek | Hek].
      * subst k. rewrite (bool_decide_eq_false_2 _ Hnew).
        rewrite bool_decide_eq_true_2 by (left; reflexivity).
        reflexivity.
      * destruct (bool_decide_reflect (k ∈ seen)) as [Hk | Hk].
        -- rewrite bool_decide_eq_true_2 by (right; exact Hk). reflexivity.
        -- rewrite bool_decide_eq_false_2; [reflexivity |].
           rewrite elem_of_cons. intros [-> | ?]; eauto.
Qed.

Lemma blank_cases (n : option string) :
  blank n = true <-> n = None \/ n = Some "".
Proof.
  destruct n as [[| c s] |]; cbn; split; intros Hn; try discriminate;
    eauto; destruct Hn; discriminate.
Qed.

Lemma nameless_as_key (n : option string) (e : entry) :
  blank n = true -> nameless_as n e = bool_decide (dedup_key e = n).
Proof.
  intros Hn. unfold nameless_as, dedup_key, py_or, blank.
  destruct (truthy_opt (e_website e)) eqn:Hweb; cbn.
  - symmetry. apply bool_decide_eq_false_2. intros Heq.
    rewrite Heq in Hweb. unfold blank in Hn. rewrite Hweb in Hn.
    discriminate.
  - reflexivity.
Qed.

(** C10 (amended): an empty-string website is treated as an absent one (the
    key falls back to the business name); the entries without a website
    whose name is absent all have the key [None] and those whose name is the
    empty string all have the key [""], two different keys; and of each of
    the two kinds the deduplicated batch keeps exactly the first entry of
    the batch, if there is one. *)
Theorem dedup_blank_website_and_names (batch : list entry) :
  (forall e, blank (e_website e) = true -> dedup_key e = e_business_name e)
  /\ (forall e, nameless e = nameless_as None e || nameless_as (Some "") e)
  /\ (forall n e, blank n = true ->
        (nameless_as n e = true <-> dedup_key e = n))
  /\ (forall n, blank n = true ->
        List.filter (nameless_as n) (deduplicate batch)
        = take 1 (List.filter (nameless_as n) batch)).
Proof.
  split; [| split; [| split]].
  - intros e He. unfold dedup_key, py_or, blank in *.
    destruct (truthy_opt (e_website e)); [discriminate | reflexivity].
  - intros e. unfold nameless, nameless_as, blank.
    destruct (negb (truthy_opt (e_website e))); cbn; [| reflexivity].
    destruct (e_business_name e) as [[| c s] |]; reflexivity.
  - intros n e Hn. rewrite (nameless_as_key n e Hn).
    apply bool_decide_eq_true.
  - intros n Hn. rewrite deduplicate_firsts.
    rewrite (filter_ext (nameless_as n) _ (fun e => nameless_as_key n e Hn)).
    rewrite (filter_ext (nameless_as n) _ (fun e => nameless_as_key n e Hn)).
    rewrite firsts_filter_key. reflexivity.
Qed.

(** ** Properties of the paginated search *)

Lemma chain_cons (api_key : option string) (params : search_params)
    (tok : string) (toks : list string) :
  chain api_key params (tok :: toks)
  = EvSearch params :: EvSleep PLACES_SLEEP
    :: chain api_key (PageToken tok api_key) toks.
Proof. reflexivity. Qed.

Lemma chain_counts (api_key : option string) (params : search_params)
    (toks : list string) :
  count is_search (chain api_key params toks) = S (length toks)
  /\ count is_sleep (chain api_key params toks) = length toks
  /\ count is_requery (chain api_key params toks)
     = (if is_requery (EvSearch params) then S (length toks)
        else length toks).
Proof.
  revert params. induction toks as [| tok toks IH]; intros params.
  - unfold chain, count. destruct params; cbn; auto.
  - rewrite chain_cons.
    destruct (IH (PageToken tok api_key)) as (Hs & Hp & Hr).
    unfold count in *. cbn [is_requery] in Hr.
    destruct params;
      cbn [List.filter is_search is_sleep is_requery length];
      rewrite Hs, Hp, Hr; auto.
Qed.

Lemma chain_delayed (api_key : option string) (params : search_params)
    (toks : list string) (prev : option event) :
  delayed prev (chain api_key params toks)
  = delayed prev [EvSearch params].
Proof.
  revert params prev. induction toks as [| tok toks IH]; intros params prev;
    [reflexivity |].
  rewrite chain_cons. cbn [delayed]. rewrite IH. cbn.
  rewrite !andb_true_r. reflexivity.
Qed.

Lemma paginate_stops (w : world) (api_key : option string)
    (params : search_params) (k : nat) (places : dict string business) :
  stops (nearby_search w k) = true ->
  exists places', forall fuel,
    paginate (S fuel) w api_key params k places
    = Some (places', S k, [EvSearch params]).
Proof.
  destruct (nearby_search w k) as [| results [tok |]] eqn:Hresp; cbn;
    intros Hstop; eexists; intros fuel; cbn [paginate]; rewrite Hresp;
    try reflexivity.
  destruct (truthy_str tok); [discriminate | reflexivity].
Qed.

Lemma paginate_continues (fuel : nat) (w : world) (api_key : option string)
    (params : search_params) (k : nat) (places : dict string business) :
  stops (nearby_search w k) = false ->
  exists results,
    nearby_search w k = SearchPage results (Some (token_of (nearby_search w k)))
    /\ paginate (S fuel) w api_key params k places
       = match paginate fuel w api_key
                 (PageToken (token_of (nearby_search w k)) api_key) (S k)
                 (fold_left add_place results places) with
         | Some (places', k', evs) =>
             Some (places', k', EvSearch params :: EvSleep PLACES_SLEEP :: evs)
         | None => None
         end.
Proof.
  cbn [paginate]. destruct (nearby_search w k) as [| results [tok |]]; cbn;
    try discriminate.
  destruct (truthy_str tok); [| discriminate]. eauto.
Qed.

Lemma paginate_reaches_stop (w : world) (api_key : option string) (n : nat) :
  forall (params : search_params) (k : nat) (places : dict string business),
  stops (nearby_search w (k + n)) = true ->
  exists (m : nat) (places' : dict string business),
    (m <= n)%nat
    /\ stops (nearby_search w (k + m)) = true
    /\ (forall i, (i < m)%nat -> stops (nearby_search w (k + i)) = false)
    /\ forall fuel, (m < fuel)%nat ->
         paginate fuel w api_key params k places
         = Some (places', (k + S m)%nat,
                 chain api_key params (tokens_from w k m)).
Proof.
  induction n as [| n IH]; intros params k places Hstop.
  - exists 0%nat. rewrite Nat.add_0_r in Hstop.
    destruct (paginate_stops w api_key params k places Hstop)
      as [places' Hp].
    exists places'. rewrite Nat.add_0_r.
    split; [lia | split; [exact Hstop | split; [intros i Hi; lia |]]].
    intros [| fuel] Hfuel; [lia |].
    rewrite Hp. replace (k + 1)%nat with (S k) by lia. reflexivity.
  - destruct (stops (nearby_search w k)) eqn:Hk.
    + exists 0%nat.
      destruct (paginate_stops w api_key params k places Hk)
        as [places' Hp].
      exists places'. rewrite Nat.add_0_r.
      split; [lia | split; [exact Hk | split; [intros i Hi; lia |]]].
      intros [| fuel] Hfuel; [lia |].
      rewrite Hp. replace (k + 1)%nat with (S k) by lia. reflexivity.
    + destruct (paginate_continues 0 w api_key params k places Hk)
        as (results & Hresp & _).
      replace (k + S n)%nat with (S k + n)%nat in Hstop by lia.
      destruct (IH (PageToken (token_of (nearby_search w k)) api_key) (S k)
                   (fold_left add_place results places) Hstop)
        as (m & places' & Hle & Hm & Hbefore & Hrun).
      exists (S m), places'.
      split; [lia |].
      split; [replace (k + S m)%nat with (S k + m)%nat by lia; exact Hm |].
      split.
      * intros [| i] Hi; [rewrite Nat.add_0_r; exact Hk |].
        replace (k + S i)%nat with (S k + i)%nat by lia.
        apply Hbefore. lia.
      * intros [| fuel] Hfuel; [lia |].
        destruct (paginate_continues fuel w api_key params k places Hk)
          as (results' & Hresp' & Hstep).
        rewrite Hstep. rewrite Hresp in Hresp'. injection Hresp' as <-.
        rewrite Hrun by lia. cbn [tokens_from]. rewrite chain_cons.
        replace (S k + S m)%nat with (k + S (S m))%nat by lia. reflexivity.
Qed.

Lemma search_keywords_failure (fuel : nat) (w : world) (location : string)
    (radius : Z) (kw : string) (keywords : list string)
    (api_key : option string) (k : nat) (places : dict string business) :
  nearby_search w k = SearchFailed ->
  search_keywords (S fuel) w location radius (kw :: keywords) api_key k places
  = match search_keywords (S fuel) w location radius keywords api_key
                          (S k) places with
    | Some (places', k', evs) =>
        Some (places', k', EvSearch (Nearby location radius kw api_key) :: evs)
    | None => None
    end.
Proof.
  intros Hfail. cbn [search_keywords paginate]. rewrite Hfail.
  destruct (search_keywords (S fuel) w location radius keywords api_key
                            (S k) places) as [[[places' k'] evs] |];
    reflexivity.
Qed.

(** C7: the pagination loop of a keyword ends at the first response that
    failed or carries no continuation token.  If the [n]-th response from
    the loop's start is such a response, the loop returns on any fuel above
    some [m <= n], the index of the first such response, after exactly
    [m + 1] requests and [m] pauses, each request with a token coming
    directly after a pause of [PLACES_SLEEP] seconds.  A failed request ends
    only its own keyword's chain: the mapping is kept and the remaining
    keywords are searched.  For responses with tokens [T1], [T2] and none,
    exactly two delayed re-queries are made and the loop stops. *)
Theorem pagination_terminates (w : world) (api_key : option string)
    (location : string) (radius : Z) :
  (forall (n : nat) (kw : string) (k : nat) (places : dict string business),
      stops (nearby_search w (k + n)) = true ->
      exists (m : nat) (places' : dict string business) (evs : list event),
        (m <= n)%nat
        /\ stops (nearby_search w (k + m)) = true
        /\ (forall i, (i < m)%nat -> stops (nearby_search w (k + i)) = false)
        /\ (forall fuel, (m < fuel)%nat ->
              paginate fuel w api_key (Nearby location radius kw api_key)
                       k places
              = Some (places', (k + S m)%nat, evs))
        /\ evs = chain api_key (Nearby location radius kw api_key)
                       (tokens_from w k m)
        /\ count is_search evs = S m
        /\ count is_requery evs = m
        /\ count is_sleep evs = m
        /\ delayed None evs = true)
  /\ (forall (fuel : nat) (kw : string) (keywords : list string) (k : nat)
             (places : dict string business),
        nearby_search w k = SearchFailed ->
        search_keywords (S fuel) w location radius (kw :: keywords) api_key
                        k places
        = match search_keywords (S fuel) w location radius keywords api_key
                                (S k) places with
          | Some (places', k', evs) =>
              Some (places', k',
                    EvSearch (Nearby location radius kw api_key) :: evs)
          | None => None
          end)
  /\ (forall (fuel : nat) (kw : string) (k : nat)
             (places : dict string business)
             (r1 r2 r3 : list raw_place) (T1 T2 : string),
        nearby_search w k = SearchPage r1 (Some T1) -> truthy_str T1 = true ->
        nearby_search w (S k) = SearchPage r2 (Some T2) ->
        truthy_str T2 = true ->
        nearby_search w (S (S k)) = SearchPage r3 None ->
        (3 <= fuel)%nat ->
        paginate fuel w api_key (Nearby location radius kw api_key) k places
        = Some (fold_left add_place r3
                  (fold_left add_place r2 (fold_left add_place r1 places)),
                S (S (S k)),
                [EvSearch (Nearby location radius kw api_key);
                 EvSleep PLACES_SLEEP; EvSearch (PageToken T1 api_key);
                 EvSleep PLACES_SLEEP; EvSearch (PageToken T2 api_key)])).
Proof.
  split; [| split].
  - intros n kw k places Hstop.
    destruct (paginate_reaches_stop w api_key n
                (Nearby location radius kw api_key) k places Hstop)
      as (m & places' & Hle & Hm & Hbefore & Hrun).
    exists m, places', (chain api_key (Nearby location radius kw api_key)
                              (tokens_from w k m)).
    assert (Hlen : length (tokens_from w k m) = m).
    { clear. revert k. induction m as [| m IH]; intros k; cbn;
        [reflexivity | rewrite IH; reflexivity]. }
    destruct (chain_counts api_key (Nearby location radius kw api_key)
                           (tokens_from w k m)) as (Hs & Hp & Hr).
    rewrite Hlen in Hs, Hp, Hr. rewrite chain_delayed.
    repeat split; assumption || reflexivity.
  - intros fuel kw keywords k places Hfail.
    apply search_keywords_failure, Hfail.
  - intros fuel kw k places r1 r2 r3 T1 T2 H1 HT1 H2 HT2 H3 Hfuel.
    destruct fuel as [| [| [| fuel]]]; try lia.
    cbn [paginate]. rewrite H1, HT1, H2, HT2, H3. reflexivity.
Qed.

(** ** Properties of the row assembly and of the persisted store *)

(** Within one call the last loop builds one row per claimed business, and
    the claimed identifiers are pairwise different and were not in the set
    the call started from. *)
Lemma build_rows_claimed (analyses : dict (option string) analysis)
    (businesses_unique : list entry) (existing_ids : gset string) :
  fst (build_rows analyses businesses_unique existing_ids)
  = map (make_row analyses) (claimed businesses_unique existing_ids)
  /\ snd (build_rows analyses businesses_unique existing_ids)
     = existing_ids
       ∪ list_to_set (omap e_place_id (claimed businesses_unique existing_ids)).
Proof.
  revert existing_ids.
  induction businesses_unique as [| b rest IH]; intros existing_ids;
    cbn [build_rows claimed].
  - cbn. split; [reflexivity | set_solver].
  - destruct (e_place_id b) as [p |] eqn:Hp; [| apply IH].
    destruct (truthy_str p); cbn [negb andb]; [| apply IH].
    unfold is_new_place.
    destruct (bool_decide_reflect (p ∈ existing_ids)) as [Hin | Hout].
    + rewrite bool_decide_eq_false_2 by (intros Hn; exact (Hn Hin)).
      cbn [negb]. apply IH.
    + rewrite bool_decide_eq_true_2 by exact Hout. cbn [negb].
      destruct (IH (existing_ids ∪ {[ p ]})) as [Hrows Hids].
      destruct (build_rows analyses rest (existing_ids ∪ {[ p ]}))
        as [rows ids].
      cbn [fst snd] in *. subst rows ids.
      split; [reflexivity |].
      change (omap e_place_id (b :: ?l))
        with (match e_place_id b with
              | Some q => q :: omap e_place_id l
              | None => omap e_place_id l
              end).
      rewrite Hp. cbn [list_to_set]. set_solver.
Qed.

Lemma claimed_ids_fresh (businesses_unique : list entry)
    (existing_ids : gset string) :
  NoDup (omap e_place_id (claimed businesses_unique existing_ids))
  /\ forall p, p ∈ omap e_place_id (claimed businesses_unique existing_ids) ->
               p ∉ existing_ids.
Proof.
  revert existing_ids.
  induction businesses_unique as [| b rest IH]; intros existing_ids;
    cbn [claimed].
  - cbn. split; [constructor | intros p Hp; inversion Hp].
  - destruct (e_place_id b) as [p |] eqn:Hp; [| apply IH].
    destruct (truthy_str p); cbn [andb]; [| apply IH].
    destruct (bool_decide_reflect (p ∉ existing_ids)) as [Hout | Hin];
      [| apply IH].
    destruct (IH (existing_ids ∪ {[ p ]})) as [Hnd Hfresh].
    change (omap e_place_id (b :: ?l))
      with (match e_place_id b with
            | Some q => q :: omap e_place_id l
            | None => omap e_place_id l
            end).
    rewrite Hp. split.
    + constructor; [| exact Hnd].
      intros Hmem. apply Hfresh in Hmem. set_solver.
    + intros q Hq. apply elem_of_cons in Hq as [-> | Hq]; [exact Hout |].
      apply Hfresh in Hq. set_solver.
Qed.

Lemma dict_get_set_other {K V} `{EqDecision K} (d : dict K V) (k k' : K)
    (v : V) :
  k' <> k -> dict_get (dict_set d k' v) k = dict_get d k.
Proof.
  intros Hne. induction d as [| [k0 v0] d IH]; cbn.
  - destruct (decide (k' = k)); [contradiction | reflexivity].
  - destruct (decide (k0 = k')) as [-> | Hk0]; cbn.
    + destruct (decide (k' = k)); [contradiction | reflexivity].
    + destruct (decide (k0 = k)); [reflexivity | exact IH].
Qed.

Lemma reader_row_lacks (fieldnames : list string) (r : list cell)
    (c : string) :
  existsb (String.eqb c) fieldnames = false ->
  dict_get (reader_row fieldnames r) c = None.
Proof.
  unfold reader_row.
  assert (Hgen : forall (l : list (string * cell)) (d : dict string string),
             existsb (String.eqb c) (map fst l) = false ->
             dict_get d c = None ->
             dict_get (fold_left
                         (fun d kv => dict_set d (fst kv) (csv_text (snd kv)))
                         l d) c = None).
  { induction l as [| [k v] l IH]; intros d Hl Hd; cbn in *; [exact Hd |].
    apply orb_false_elim in Hl as [Hk Hl].
    apply IH; [exact Hl |].
    rewrite dict_get_set_other; [exact Hd |].
    intros ->. rewrite String.eqb_refl in Hk. discriminate. }
  intros Hcols. apply Hgen; [| reflexivity].
  clear Hgen. revert r. induction fieldnames as [| f fs IH]; intros r;
    [reflexivity |].
  destruct r as [| x r]; [reflexivity |]. cbn in *.
  apply orb_false_elim in Hcols as [Hf Hfs]. rewrite Hf. cbn.
  apply IH, Hfs.
Qed.

(** A table without a [place_id] column seeds the filter with nothing. *)
Lemma load_without_place_id (df : DataFrame) :
  has_column "place_id" df = false ->
  load_existing_place_ids (Table df) = Some ∅.
Proof.
  intros Hcol. unfold load_existing_place_ids. cbn.
  f_equal.
  match goal with
  | |- fold_left ?f _ _ = _ =>
      assert (Hacc : forall (rs : list (list cell)) (acc : gset string),
                 fold_left f (map (reader_row (df_columns df)) rs) acc = acc)
  end.
  { induction rs as [| r rs IH]; intros acc; cbn; [reflexivity |].
    rewrite reader_row_lacks by exact Hcol. apply IH. }
  apply Hacc.
Qed.

Lemma sort_values_columns (by_ : string) (df df' : DataFrame) :
  sort_values by_ df = Some df' -> df_columns df' = df_columns df.
Proof.
  unfold sort_values. destruct (has_column by_ df); [| discriminate].
  intros [= <-]. reflexivity.
Qed.

Lemma drop_duplicates_columns (subset : list string) (df df' : DataFrame) :
  drop_duplicates subset df = Some df' -> df_columns df' = df_columns df.
Proof.
  unfold drop_duplicates. destruct (forallb _ subset); [| discriminate].
  intros [= <-]. reflexivity.
Qed.

Lemma save_new_lacks_place_id (rows : list lead_row) (df : DataFrame) :
  sort_values "lead_score" (frame_of_rows rows) = Some df ->
  has_column "place_id" df = false.
Proof.
  intros Hsort. unfold has_column.
  rewrite (sort_values_columns _ _ _ Hsort).
  destruct rows; reflexivity.
Qed.

Lemma concat_frames_column (c : string) (df_old df_new : DataFrame) :
  has_column c (concat_frames df_old df_new) = true ->
  has_column c df_old = true \/ has_column c df_new = true.
Proof.
  unfold has_column, concat_frames. cbn [df_columns].
  rewrite existsb_app. intros Hc. apply orb_prop in Hc as [Hc | Hc];
    [left; exact Hc | right].
  apply existsb_exists in Hc as (x & Hx & Hcx).
  apply filter_In in Hx as [Hx _].
  apply existsb_exists. eauto.
Qed.

(** Writing the store never gives it a [place_id] column: the written table
    has one only if the table read had one. *)
Lemma save_results_columns (rows : list lead_row) (csv csv' : store_file) :
  save_results rows csv = Some csv' ->
  exists df, csv' = Table df
    /\ (has_column "place_id" df = true ->
        exists df_old, csv = Table df_old
                       /\ has_column "place_id" df_old = true).
Proof.
  unfold save_results.
  assert (Hnew : match sort_values "lead_score" (frame_of_rows rows) with
                 | Some df_new => Some (Table df_new)
                 | None => None
                 end = Some csv' ->
                 exists df, csv' = Table df
                   /\ (has_column "place_id" df = true ->
                       exists df_old, csv = Table df_old
                                      /\ has_column "place_id" df_old = true)).
  { destruct (sort_values "lead_score" (frame_of_rows rows)) as [df |] eqn:Hs;
      [| discriminate].
    intros [= <-]. exists df. split; [reflexivity |].
    rewrite (save_new_lacks_place_id rows df Hs). discriminate. }
  destruct csv as [| | df_old]; cbn [os_path_exists read_csv];
    [exact Hnew | exact Hnew |].
  destruct (frame_empty df_old); cbn [negb]; [exact Hnew |].
  set (combined := concat_frames df_old (frame_of_rows rows)).
  destruct (if has_column "website" combined
            then drop_duplicates ["website"; "business_name"] combined
            else drop_duplicates ["business_name"] combined)
    as [deduped |] eqn:Hdd; [| discriminate].
  destruct (sort_values "lead_score" deduped) as [sorted |] eqn:Hs;
    [| discriminate].
  intros [= <-]. exists sorted. split; [reflexivity |].
  intros Hcol. exists df_old. split; [reflexivity |].
  assert (Hcols : df_columns sorted = df_columns combined).
  { rewrite (sort_values_columns _ _ _ Hs).
    destruct (has_column "website" combined);
      exact (drop_duplicates_columns _ _ _ Hdd). }
  assert (Hc : has_column "place_id" combined = true).
  { unfold has_column in *. rewrite <- Hcols. exact Hcol. }
  apply concat_frames_column in Hc as [Hc | Hc]; [exact Hc |].
  destruct rows; discriminate Hc.
Qed.

(** X20: whatever the rows, a store without a [place_id] column stays without
    one when it is rewritten, and the next run loads an empty set from
    it. *)
Lemma rewritten_store_seeds_nothing (rows : list lead_row)
    (csv csv' : store_file) :
  no_place_id csv -> save_results rows csv = Some csv' ->
  no_place_id csv' /\ load_existing_place_ids csv' = Some ∅.
Proof.
  intros Hno Hsave.
  destruct (save_results_columns rows csv csv' Hsave) as (df & -> & Hcol).
  assert (Hdf : has_column "place_id" df = false).
  { destruct (has_column "place_id" df) eqn:Hc; [| reflexivity].
    destruct (Hcol eq_refl) as (df_old & -> & Hold).
    cbn in Hno. congruence. }
  split; [exact Hdf | apply load_without_place_id, Hdf].
Qed.

(** C1, on the code: a first run over a world with the single place [p1]
    writes a store without a [place_id] column, from which the next run
    loads an empty identifier set; the next run over the same world builds
    the row of [p1] again, and when Place Details has meanwhile learned the
    website of [p1] the rewritten store holds two rows of that place. *)
Theorem place_emitted_again_by_next_run (fuel : nat) :
  script (S fuel) (town None) (Some "key") Missing
  = Finished (town_events (Some "key")) [acme_row None 10] (Table first_store)
  /\ load_existing_place_ids (Table first_store) = Some ∅
  /\ (exists csv,
        script (S fuel) (town None) (Some "key") (Table first_store)
        = Finished (town_events (Some "key")) [acme_row None 10] csv)
  /\ script (S fuel) (town (Some "http://acme.example")) (Some "key")
            (Table first_store)
     = Finished (town_events (Some "key") ++ [EvFetch "http://acme.example"])
                [acme_row (Some "http://acme.example") 17]
                (Table second_store).
Proof.
  split; [vm_compute; reflexivity |].
  split; [vm_compute; reflexivity |].
  split; [eexists; vm_compute; reflexivity | vm_compute; reflexivity].
Qed.

(** ** Properties of [main] *)

Lemma paginate_first_event (fuel : nat) (w : world) (api_key : option string)
    (params : search_params) (k k' : nat)
    (places places' : dict string business) (evs : list event) :
  paginate fuel w api_key params k places = Some (places', k', evs) ->
  exists rest, evs = EvSearch params :: rest.
Proof.
  destruct fuel as [| fuel]; [discriminate |]. cbn [paginate].
  destruct (nearby_search w k) as [| results [tok |]];
    try (intros [= _ _ <-]; eauto).
  destruct (truthy_str tok); [| intros [= _ _ <-]; eauto].
  destruct (paginate fuel w api_key _ (S k) _) as [[[p n] e] |];
    [| discriminate].
  intros [= _ _ <-]. eauto.
Qed.

Lemma get_places_first_event (fuel : nat) (w : world) (location : string)
    (radius : Z) (kw : string) (keywords : list string)
    (api_key : option string) (places : list business) (evs : list event) :
  get_places fuel w location radius (kw :: keywords) api_key
  = Some (places, evs) ->
  exists rest, evs = EvSearch (Nearby location radius kw api_key) :: rest.
Proof.
  unfold get_places. cbn [search_keywords].
  destruct (paginate fuel w api_key _ 0%nat []) as [[[p n] e] |] eqn:Hp;
    [| discriminate].
  destruct (search_keywords fuel w location radius keywords api_key n p)
    as [[[p' n'] e'] |]; [| discriminate].
  intros [= _ <-].
  destruct (paginate_first_event _ _ _ _ _ _ _ _ _ Hp) as [rest ->].
  exists (rest ++ e'). reflexivity.
Qed.

(** C6, on the code: with the credential missing ([os.getenv] gave [None])
    [main] does not stop at its guard.  Whatever the world and the store,
    a run that ends has first issued the Nearby Search request of the first
    keyword, without a key; without network it issues one request per
    keyword and ends normally.  The guard stops the run before any request
    only for the placeholder text. *)
Theorem missing_key_reaches_network :
  (forall (fuel : nat) (w : world) (existing : gset string)
          (csv : store_file),
      match main fuel w None existing csv with
      | OutOfFuel => True
      | Crashed evs | Finished evs _ _ =>
          exists rest,
            evs = EvSearch (Nearby LOCATION SEARCH_RADIUS "landscaping" None)
                  :: rest
      end)
  /\ (forall fuel : nat,
        script (S fuel) offline None Missing
        = Finished
            [EvSearch (Nearby LOCATION SEARCH_RADIUS "landscaping" None);
             EvSearch (Nearby LOCATION SEARCH_RADIUS "house cleaning" None)]
            [] Missing)
  /\ (forall (fuel : nat) (w : world) (existing : gset string)
             (csv : store_file),
        main fuel w (Some "YOUR_GOOGLE_API_KEY") existing csv
        = Finished [] [] csv).
Proof.
  split; [| split].
  - intros fuel w existing csv. unfold main. cbn [is_placeholder].
    unfold KEYWORDS.
    destruct (get_places fuel w LOCATION SEARCH_RADIUS _ None)
      as [[places evs] |] eqn:Hget; [| exact I].
    destruct (get_places_first_event _ _ _ _ _ _ _ _ _ Hget) as [rest ->].
    destruct (truthy_list places); cbn [negb]; [| eauto].
    destruct (process_businesses w places None existing)
      as [[rows ids] evs'].
    destruct (save_results rows csv); eexists; reflexivity.
  - intros fuel. vm_compute. reflexivity.
  - intros fuel w existing csv. reflexivity.
Qed.

(** ** Properties of the store readers *)

(** C8, on the code: a missing store loads as the empty set, and
    [save_results] treats a prior file it cannot read as no prior file;
    but [load_existing_place_ids] raises on a file it cannot read, and the
    script, which loads the set before [main] runs, ends there. *)
Theorem store_absent_or_unreadable :
  load_existing_place_ids Missing = Some ∅
  /\ (forall rows : list lead_row,
        save_results rows Unreadable = save_results rows Missing)
  /\ (forall (r : lead_row) (rows : list lead_row),
        exists df, save_results (r :: rows) Unreadable = Some (Table df))
  /\ load_existing_place_ids Unreadable = None
  /\ (forall (fuel : nat) (w : world) (key : option string),
        script fuel w key Unreadable = Crashed []).
Proof.
  split; [reflexivity |].
  split; [intros rows; reflexivity |].
  split; [intros r rows; eexists; reflexivity |].
  split; [reflexivity | intros fuel w key; reflexivity].
Qed.

(** The loop has no bound of its own: against a server that answers every
    request with another token it never leaves, whatever the fuel. *)
Lemma paginate_endless (fuel : nat) (api_key : option string) :
  forall (params : search_params) (k : nat) (places : dict string business),
    paginate fuel endless api_key params k places = None.
Proof.
  induction fuel as [| fuel IH]; intros params k places; [reflexivity |].
  cbn. rewrite IH. reflexivity.
Qed.

(** The counterpart of [nameless_collapse] at [nameless_batch]: both
    entries are left after deduplication. *)
Lemma nameless_batch_survivors :
  length (List.filter nameless (deduplicate nameless_batch)) = 2%nat.
Proof. reflexivity. Qed.

End Properties.

(** ** The properties at concrete inputs *)

Lemma is_new_place_check_and_insert_witness :
  is_new_place "p1" ∅ = (true, ∅ ∪ {[ "p1" ]})
  /\ "p1" ∈ snd (is_new_place "p1" ∅).
Proof.
  apply (proj1 (proj2 (is_new_place_check_and_insert ∅ "p1"))).
  apply not_elem_of_empty.
Defined.

Lemma score_monotonic_witness :
  score (H := plain_runtime) (sample_input true)
  <= score (H := plain_runtime) (sample_input false)
  /\ score (H := plain_runtime) sample_without_website = 10.
Proof.
  split.
  - apply (proj1 (score_monotonic (H := plain_runtime)) NoHttps
                 (sample_input true) (sample_input false)).
    + reflexivity.
    + unfold same_except. repeat split; intros Hs;
        reflexivity || (exfalso; apply Hs; reflexivity).
    + reflexivity.
    + reflexivity.
  - apply (proj2 (score_monotonic (H := plain_runtime))). reflexivity.
Defined.

(** C5 as stated fails: the fetch of [https://example.com] fails and the
    analysis returned has its HTTPS flag set, not at its default. *)
Lemma https_flag_survives_failed_fetch :
  ~ all_default_on_failure (H := plain_runtime) offline
      (Some "https://example.com").
Proof.
  intros Hall.
  specialize (Hall "https://example.com" "timed out" (conj eq_refl eq_refl)).
  vm_compute in Hall. discriminate Hall.
Qed.

Lemma analyze_website_fetch_failure_witness :
  snd (analyze_website (H := plain_runtime) offline
         (Some "https://example.com"))
  = Returned (failed_analysis true "timed out").
Proof.
  apply (analyze_website_fetch_failure (H := plain_runtime) offline
           (Some "https://example.com") "https://example.com" "timed out");
    reflexivity.
Defined.

(** C10 as stated fails: the two entries of [nameless_batch] have neither
    website nor name, their keys differ and both are kept. *)
Lemma nameless_entries_keep_two_keys : ~ nameless_collapse nameless_batch.
Proof.
  intros [Hkey _].
  specialize (Hkey (nameless_entry "p1" None) (nameless_entry "p2" (Some ""))).
  cbn in Hkey. discriminate Hkey; auto.
Qed.

Lemma dedup_blank_website_and_names_witness :
  List.filter (nameless_as (Some "")) (deduplicate nameless_batch)
  = take 1 (List.filter (nameless_as (Some "")) nameless_batch).
Proof.
  apply (proj2 (proj2 (proj2 (dedup_blank_website_and_names nameless_batch)))
           (Some "")).
  reflexivity.
Defined.

Lemma pagination_terminates_witness :
  (exists (m : nat) (places' : dict string business) (evs : list event),
      (m <= 2)%nat
      /\ stops (nearby_search three_pages (0 + m)) = true
      /\ (forall i, (i < m)%nat ->
            stops (nearby_search three_pages (0 + i)) = false)
      /\ (forall fuel, (m < fuel)%nat ->
            paginate fuel three_pages None
                     (Nearby LOCATION SEARCH_RADIUS "landscaping" None)
                     0 []
            = Some (places', (0 + S m)%nat, evs))
      /\ evs = chain None (Nearby LOCATION SEARCH_RADIUS "landscaping" None)
                     (tokens_from three_pages 0 m)
      /\ count is_search evs = S m
      /\ count is_requery evs = m
      /\ count is_sleep evs = m
      /\ delayed None evs = true)
  /\ paginate 3 three_pages None
              (Nearby LOCATION SEARCH_RADIUS "landscaping" None) 0 []
     = Some ([], 3%nat,
             [EvSearch (Nearby LOCATION SEARCH_RADIUS "landscaping" None);
              EvSleep PLACES_SLEEP; EvSearch (PageToken "T1" None);
              EvSleep PLACES_SLEEP; EvSearch (PageToken "T2" None)]).
Proof.
  split.
  - apply (proj1 (pagination_terminates three_pages None LOCATION
                    SEARCH_RADIUS) 2%nat "landscaping" 0%nat []).
    reflexivity.
  - apply (proj2 (proj2 (pagination_terminates three_pages None LOCATION
                           SEARCH_RADIUS))
             3%nat "landscaping" 0%nat [] [] [] [] "T1" "T2");
      reflexivity.
Defined.

(** * Further properties of the code *)

(** ** The sorted sets of [analyze_website] *)

Lemma insert_sorted_elem (x y : string) (l : list string) :
  y ∈ insert_sorted x l <-> y = x \/ y ∈ l.
Proof.
  induction l as [| z l IH]; cbn.
  - rewrite list_elem_of_singleton, elem_of_nil. tauto.
  - destruct (String_as_OT.compare_spec x z) as [-> | Hlt | Hgt].
    + rewrite elem_of_cons. tauto.
    + rewrite !elem_of_cons. tauto.
    + rewrite !elem_of_cons, IH. tauto.
Qed.

Lemma sorted_set_elem (y : string) (l : list string) :
  y ∈ sorted_set l <-> y ∈ l.
Proof.
  induction l as [| x l IH]; cbn; [reflexivity |].
  rewrite insert_sorted_elem, elem_of_cons, IH. reflexivity.
Qed.

Lemma insert_sorted_sorted (x : string) (l : list string) :
  StronglySorted String_as_OT.lt l ->
  StronglySorted String_as_OT.lt (insert_sorted x l).
Proof.
  induction l as [| z l IH]; intros Hs; cbn.
  - repeat constructor.
  - apply StronglySorted_inv in Hs as [Hl Hz].
    destruct (String_as_OT.compare_spec x z) as [-> | Hlt | Hgt].
    + constructor; assumption.
    + constructor; [constructor; assumption |].
      constructor; [exact Hlt |].
      eapply Forall_impl; [exact Hz |].
      intros a Ha. etransitivity; eassumption.
    + constructor; [apply IH, Hl |].
      apply List.Forall_forall. intros a Ha.
      rewrite <- list_elem_of_In in Ha.
      apply insert_sorted_elem in Ha as [-> | Ha]; [exact Hgt |].
      rewrite List.Forall_forall in Hz. apply Hz.
      rewrite <- list_elem_of_In. exact Ha.
Qed.

Lemma sorted_set_sorted (l : list string) :
  StronglySorted String_as_OT.lt (sorted_set l).
Proof.
  induction l as [| x l IH]; cbn; [constructor |].
  apply insert_sorted_sorted, IH.
Qed.

Lemma strictly_sorted_NoDup (l : list string) :
  StronglySorted String_as_OT.lt l -> NoDup l.
Proof.
  induction 1 as [| x l Hs IH Hx]; constructor; [| exact IH].
  intros Hin. rewrite List.Forall_forall in Hx.
  rewrite list_elem_of_In in Hin. apply Hx in Hin.
  exact (irreflexivity String_as_OT.lt x Hin).
Qed.

(** The sorted set of a list depends on its elements only. *)
Lemma sorted_set_ext (l1 l2 : list string) :
  (forall x, x ∈ l1 <-> x ∈ l2) -> sorted_set l1 = sorted_set l2.
Proof.
  intros Hel.
  assert (Hanti : AntiSymm eq String_as_OT.lt).
  { intros a b Hab Hba. exfalso.
    apply (irreflexivity String_as_OT.lt a). etransitivity; eassumption. }
  apply (StronglySorted_unique String_as_OT.lt);
    [apply sorted_set_sorted | apply sorted_set_sorted |].
  apply NoDup_Permutation;
    [apply strictly_sorted_NoDup, sorted_set_sorted
    | apply strictly_sorted_NoDup, sorted_set_sorted |].
  intros x. rewrite !sorted_set_elem. apply Hel.
Qed.

(** ** The e-mail and phone loops of [analyze_website] *)

Lemma lower_char_idem (c : ascii) : lower_char (lower_char c) = lower_char c.
Proof. destruct c as [[] [] [] [] [] [] [] []]; reflexivity. Qed.

Lemma lower_char_not_upper (c : ascii) :
  in_range 65 90 (lower_char c) = false.
Proof. destruct c as [[] [] [] [] [] [] [] []]; reflexivity. Qed.

Lemma lower_idem (s : string) : lower (lower s) = lower s.
Proof.
  induction s as [| c s IH]; cbn; [reflexivity |].
  rewrite lower_char_idem, IH. reflexivity.
Qed.

Lemma lower_no_upper (s : string) :
  forall_chars (fun c => negb (in_range 65 90 c)) (lower s) = true.
Proof.
  induction s as [| c s IH]; cbn; [reflexivity |].
  rewrite lower_char_not_upper, IH. reflexivity.
Qed.

Lemma remove_all_forall_chars (p : ascii -> bool) (pat : string) (s : string) :
  forall_chars p s = true ->
  forall skip, forall_chars p (remove_all pat skip s) = true.
Proof.
  induction s as [| c s IH]; intros Hs skip; [reflexivity |].
  cbn [forall_chars] in Hs. apply andb_prop in Hs as [Hc Hs].
  cbn [remove_all]. destruct skip as [| skip]; [| apply IH, Hs].
  destruct (String.prefix pat (String c s)); [apply IH, Hs |].
  cbn [forall_chars]. rewrite Hc, (IH Hs). reflexivity.
Qed.

Lemma keep_email_app (filtered : list string) (e : string) :
  keep_email filtered e = filtered ++ keep_email [] e.
Proof.
  unfold keep_email.
  destruct (existsb _ image_extensions); [rewrite app_nil_r |]; reflexivity.
Qed.

Lemma keep_email_lower (e : string) :
  keep_email [] (lower e) = keep_email [] e.
Proof. unfold keep_email. rewrite lower_idem. reflexivity. Qed.

Lemma fold_keep_email (emails filtered : list string) :
  fold_left keep_email emails filtered
  = filtered ++ flat_map (keep_email []) emails.
Proof.
  revert filtered. induction emails as [| e emails IH]; intros filtered; cbn.
  - rewrite app_nil_r. reflexivity.
  - rewrite IH, keep_email_app, <- app_assoc. reflexivity.
Qed.

Lemma kept_emails_elem (x : string) (emails : list string) :
  x ∈ flat_map (keep_email []) emails
  <-> exists low, low ∈ map lower emails /\ x ∈ keep_email [] low.
Proof.
  rewrite list_elem_of_In, in_flat_map. split.
  - intros (e & He & Hx). exists (lower e). split.
    + apply list_elem_of_In, in_map, He.
    + rewrite keep_email_lower. apply list_elem_of_In, Hx.
  - intros (low & Hlow & Hx).
    apply list_elem_of_In, in_map_iff in Hlow as (e & <- & He).
    exists e. split; [exact He |].
    rewrite keep_email_lower in Hx. apply list_elem_of_In, Hx.
Qed.

(** X1: the e-mail addresses reported for a page are in strictly
    increasing order (so without duplicates) and free of upper-case
    letters, and they depend only on which lower-cased matches there are:
    neither the order of the matches nor their letter case nor their
    multiplicity matters. *)
Theorem filter_emails_canonical (emails emails' : list string) :
  StronglySorted String_as_OT.lt (filter_emails emails)
  /\ (forall x, x ∈ filter_emails emails ->
        forall_chars (fun c => negb (in_range 65 90 c)) x = true)
  /\ ((forall low, low ∈ map lower emails <-> low ∈ map lower emails') ->
      filter_emails emails = filter_emails emails')
  /\ (Permutation emails emails' -> filter_emails emails = filter_emails emails').
Proof.
  assert (Hext : (forall low, low ∈ map lower emails <-> low ∈ map lower emails')
                 -> filter_emails emails = filter_emails emails').
  { intros Hlow. unfold filter_emails. apply sorted_set_ext. intros x.
    rewrite !fold_keep_email, !app_nil_l, !kept_emails_elem.
    split; intros (low & Hl & Hx); exists low; (split; [apply Hlow, Hl | exact Hx]). }
  split; [apply sorted_set_sorted |].
  split; [| split; [exact Hext |]].
  - intros x Hx. unfold filter_emails in Hx.
    rewrite sorted_set_elem, fold_keep_email, app_nil_l in Hx.
    rewrite list_elem_of_In, in_flat_map in Hx. destruct Hx as (e & _ & Hx).
    unfold keep_email in Hx.
    destruct (existsb _ image_extensions); [destruct Hx |].
    destruct Hx as [<- | []].
    destruct (contains "mailto:" (lower e));
      [apply remove_all_forall_chars |]; apply lower_no_upper.
  - intros Hperm. apply Hext. intros low.
    rewrite !list_elem_of_In.
    split; apply Permutation_in, Permutation_map;
      [exact Hperm | symmetry; exact Hperm].
Qed.

Lemma keep_digits_digits (p : string) :
  forall_chars (in_range 48 57) (keep_digits p) = true.
Proof.
  induction p as [| c p IH]; cbn; [reflexivity |].
  destruct (in_range 48 57 c) eqn:Hc; [cbn; rewrite Hc |]; exact IH.
Qed.

Lemma keep_digits_keep (c : ascii) (p : string) :
  in_range 48 57 c = true -> keep_digits (String c p) = String c (keep_digits p).
Proof. intros Hc. cbn. rewrite Hc. reflexivity. Qed.

Lemma keep_digits_drop (c : ascii) (p : string) :
  in_range 48 57 c = false -> keep_digits (String c p) = keep_digits p.
Proof. intros Hc. cbn. rewrite Hc. reflexivity. Qed.

Lemma formatted_phone_fixed (c0 c1 c2 c3 c4 c5 c6 c7 c8 c9 : ascii) :
  forall_chars (in_range 48 57)
    (String c0 (String c1 (String c2 (String c3 (String c4 (String c5
       (String c6 (String c7 (String c8 (String c9 EmptyString))))))))))
  = true ->
  clean_phone
    (String "(" (String "+" (String "1" (String ")" (String " "
      (String c0 (String c1 (String c2 (String "-"
        (String c3 (String c4 (String c5 (String "-"
          (String c6 (String c7 (String c8 (String c9 EmptyString)))))))))))))))))
  = Some
    (String "(" (String "+" (String "1" (String ")" (String " "
      (String c0 (String c1 (String c2 (String "-"
        (String c3 (String c4 (String c5 (String "-"
          (String c6 (String c7 (String c8 (String c9 EmptyString))))))))))))))))).
Proof.
  cbn [forall_chars]. intros Hd.
  do 10 (apply andb_prop in Hd as [?H Hd]).
  unfold clean_phone.
  repeat first [ rewrite keep_digits_keep by (assumption || reflexivity)
               | rewrite keep_digits_drop by reflexivity ].
  reflexivity.
Qed.


Lemma string_of_length_10 (d : string) :
  String.length d = 10%nat ->
  exists c0 c1 c2 c3 c4 c5 c6 c7 c8 c9 : ascii,
    d = String c0 (String c1 (String c2 (String c3 (String c4 (String c5
          (String c6 (String c7 (String c8 (String c9 EmptyString))))))))).
Proof.
  intros Hlen.
  do 10 (destruct d as [| ?c d]; [discriminate Hlen |]).
  destruct d; [| discriminate Hlen].
  repeat eexists.
Qed.

Lemma clean_phone_digits (p s : string) :
  clean_phone p = Some s ->
  exists c0 c1 c2 c3 c4 c5 c6 c7 c8 c9 : ascii,
    forall_chars (in_range 48 57)
      (String c0 (String c1 (String c2 (String c3 (String c4 (String c5
         (String c6 (String c7 (String c8 (String c9 EmptyString))))))))))
    = true
    /\ s = String "(" (String "+" (String "1" (String ")" (String " "
             (String c0 (String c1 (String c2 (String "-"
               (String c3 (String c4 (String c5 (String "-"
                 (String c6 (String c7 (String c8 (String c9 EmptyString)))))))))))))))).
Proof.
  unfold clean_phone.
  pose proof (keep_digits_digits p) as Hd.
  set (d0 := keep_digits p) in *. clearbody d0.
  set (d := if (String.length d0 =? 11)%nat && startswith d0 "1"
            then substring 1 (String.length d0 - 1) d0 else d0).
  assert (Hdd : forall_chars (in_range 48 57) d = true).
  { subst d. destruct ((String.length d0 =? 11)%nat && startswith d0 "1")
      eqn:Hcond; [| exact Hd].
    apply andb_prop in Hcond as [Hlen _]. apply Nat.eqb_eq in Hlen.
    destruct d0 as [| c d0]; [discriminate Hlen |].
    cbn [forall_chars] in Hd. apply andb_prop in Hd as [_ Hd].
    injection Hlen as Hlen.
    destruct (string_of_length_10 d0 Hlen)
      as (c0 & c1 & c2 & c3 & c4 & c5 & c6 & c7 & c8 & c9 & ->).
    exact Hd. }
  clearbody d.
  destruct (Nat.eqb_spec (String.length d) 10) as [Hlen |]; [| discriminate].
  destruct (string_of_length_10 d Hlen)
    as (c0 & c1 & c2 & c3 & c4 & c5 & c6 & c7 & c8 & c9 & ->).
  intros [= <-]. exists c0, c1, c2, c3, c4, c5, c6, c7, c8, c9.
  split; [exact Hdd | reflexivity].
Qed.

(** X2: a phone number the function reports has the display form
    [(+1) NNN-NNN-NNNN], seventeen characters long, and that form is a
    fixed point of the cleaning: cleaning a reported number gives the same
    number. *)
Theorem clean_phone_canonical (p s : string) :
  clean_phone p = Some s ->
  clean_phone s = Some s
  /\ String.length s = 17%nat
  /\ startswith s "(+1) " = true
  /\ String.length (keep_digits s) = 11%nat.
Proof.
  intros Hp.
  destruct (clean_phone_digits p s Hp)
    as (c0 & c1 & c2 & c3 & c4 & c5 & c6 & c7 & c8 & c9 & Hd & ->).
  split; [apply formatted_phone_fixed, Hd |].
  split; [reflexivity |]. split; [reflexivity |].
  cbn [forall_chars] in Hd. do 10 (apply andb_prop in Hd as [?H Hd]).
  repeat first [ rewrite keep_digits_keep by (assumption || reflexivity)
               | rewrite keep_digits_drop by reflexivity ].
  reflexivity.
Qed.

(** X3: the phone numbers reported for a page are in strictly increasing
    order, each in canonical form, and they do not depend on the order of
    the matches. *)
Theorem clean_phones_canonical (phone_matches phone_matches' : list string) :
  StronglySorted String_as_OT.lt (clean_phones phone_matches)
  /\ (forall s, s ∈ clean_phones phone_matches -> clean_phone s = Some s)
  /\ (Permutation phone_matches phone_matches' ->
      clean_phones phone_matches = clean_phones phone_matches').
Proof.
  unfold clean_phones. split; [apply sorted_set_sorted |]. split.
  - intros s Hs. rewrite sorted_set_elem, list_elem_of_omap in Hs.
    destruct Hs as (p & _ & Hp).
    destruct (clean_phone_digits p s Hp)
      as (c0 & c1 & c2 & c3 & c4 & c5 & c6 & c7 & c8 & c9 & Hd & ->).
    apply formatted_phone_fixed, Hd.
  - intros Hperm. apply sorted_set_ext. intros x.
    rewrite Hperm. reflexivity.
Qed.

(** ** The search: [get_places] *)

Lemma add_place_extends (places : dict string business) (p : raw_place) :
  exists extra, add_place places p = places ++ extra
                /\ (places_ok places -> places_ok (places ++ extra)).
Proof.
  unfold add_place.
  destruct (rp_place_id p) as [pid |];
    [| exists []; rewrite app_nil_r; auto].
  destruct (truthy_str pid) eqn:Hpid; cbn [negb];
    [| exists []; rewrite app_nil_r; auto].
  destruct (dict_in pid places) eqn:Hin;
    [exists []; rewrite app_nil_r; auto |].
  rewrite dict_set_fresh by exact Hin. eexists. split; [reflexivity |].
  intros [Hnd Hall]. split.
  - rewrite map_app. cbn. apply NoDup_app. split; [exact Hnd |].
    split; [| apply NoDup_singleton].
    intros k Hk Hk'. apply list_elem_of_singleton in Hk' as ->.
    apply dict_in_keys in Hk. congruence.
  - apply Forall_app. split; [exact Hall |].
    constructor; [| constructor]. cbn. auto.
Qed.

Lemma fold_add_place_extends (results : list raw_place)
    (places : dict string business) :
  exists extra, fold_left add_place results places = places ++ extra
                /\ (places_ok places -> places_ok (places ++ extra)).
Proof.
  revert places. induction results as [| p results IH]; intros places; cbn.
  - exists []. rewrite app_nil_r. auto.
  - destruct (add_place_extends places p) as (e1 & -> & H1).
    destruct (IH (places ++ e1)) as (e2 & -> & H2).
    exists (e1 ++ e2). rewrite app_assoc. auto.
Qed.

Lemma paginate_extends (fuel : nat) (w : world) (api_key : option string) :
  forall (params : search_params) (k k' : nat)
         (places places' : dict string business) (evs : list event),
    paginate fuel w api_key params k places = Some (places', k', evs) ->
    exists extra toks,
      places' = places ++ extra
      /\ (places_ok places -> places_ok places')
      /\ evs = chain api_key params toks
      /\ k' = (k + S (length toks))%nat.
Proof.
  induction fuel as [| fuel IH]; intros params k k' places places' evs;
    [discriminate |].
  cbn [paginate].
  destruct (nearby_search w k) as [| results next_token].
  - intros [= <- <- <-]. exists [], []. rewrite app_nil_r.
    split; [reflexivity | split; [auto | split; [reflexivity | cbn [length]; lia]]].
  - destruct (fold_add_place_extends results places) as (e1 & Hfold & Hok).
    rewrite Hfold.
    assert (Hstop : Some (places ++ e1, S k, [EvSearch params])
                    = Some (places', k', evs) ->
                    exists extra toks,
                      places' = places ++ extra
                      /\ (places_ok places -> places_ok places')
                      /\ evs = chain api_key params toks
                      /\ k' = (k + S (length toks))%nat).
    { intros [= <- <- <-]. exists e1, [].
      split; [reflexivity | split; [auto | split; [reflexivity | cbn [length]; lia]]]. }
    destruct next_token as [tok |]; [| exact Hstop].
    destruct (truthy_str tok); [| exact Hstop].
    destruct (paginate fuel w api_key (PageToken tok api_key) (S k)
                       (places ++ e1)) as [[[p n] e] |] eqn:Hrec;
      [| discriminate].
    intros [= <- <- <-].
    destruct (IH _ _ _ _ _ _ Hrec) as (e2 & toks & -> & Hok2 & -> & ->).
    exists (e1 ++ e2), (tok :: toks). rewrite app_assoc.
    split; [reflexivity | split; [auto | split; [reflexivity | cbn [length]; lia]]].
Qed.

Lemma chain_first_queries (api_key : option string) (toks : list string) :
  forall params : search_params,
    List.filter is_first_query (chain api_key params toks)
    = List.filter is_first_query [EvSearch params].
Proof.
  induction toks as [| tok toks IH]; intros params; [reflexivity |].
  rewrite chain_cons. cbn [List.filter]. rewrite IH.
  destruct params; reflexivity.
Qed.

Lemma delayed_head (prev : option event) (evs : list event) :
  match evs with e :: _ => is_requery e = false | [] => True end ->
  delayed prev evs = delayed None evs.
Proof.
  destruct evs as [| e evs]; [reflexivity |].
  cbn. intros ->. reflexivity.
Qed.

Lemma delayed_chain_app (api_key : option string) (toks : list string)
    (tl : list event) :
  match tl with e :: _ => is_requery e = false | [] => True end ->
  forall (params : search_params) (prev : option event),
    delayed prev (chain api_key params toks ++ tl)
    = delayed prev [EvSearch params] && delayed None tl.
Proof.
  intros Htl. induction toks as [| tok toks IH]; intros params prev.
  - unfold chain. cbn [flat_map app delayed].
    rewrite (delayed_head (Some (EvSearch params)) tl Htl), andb_true_r.
    reflexivity.
  - rewrite chain_cons. cbn [app delayed]. rewrite IH. cbn.
    rewrite !andb_true_r. reflexivity.
Qed.

Lemma count_app (p : event -> bool) (evs evs' : list event) :
  count p (evs ++ evs') = (count p evs + count p evs')%nat.
Proof. unfold count. rewrite List.filter_app, List.length_app. reflexivity. Qed.

Lemma search_keywords_extends (fuel : nat) (w : world) (location : string)
    (radius : Z) (api_key : option string) (keywords : list string) :
  forall (k k' : nat) (places places' : dict string business)
         (evs : list event),
    search_keywords fuel w location radius keywords api_key k places
    = Some (places', k', evs) ->
    (exists extra, places' = places ++ extra)
    /\ (places_ok places -> places_ok places')
    /\ List.filter is_first_query evs
       = map (fun kw => EvSearch (Nearby location radius kw api_key)) keywords
    /\ match evs with e :: _ => is_requery e = false | [] => True end
    /\ delayed None evs = true
    /\ count is_sleep evs = count is_requery evs.
Proof.
  induction keywords as [| kw keywords IH];
    intros k k' places places' evs; cbn [search_keywords].
  - intros [= <- <- <-].
    split; [exists []; rewrite app_nil_r; reflexivity |].
    split; [auto | repeat split].
  - destruct (paginate fuel w api_key _ k places) as [[[p1 k1] e1] |] eqn:Hp;
      [| discriminate].
    destruct (search_keywords fuel w location radius keywords api_key k1 p1)
      as [[[p2 k2] e2] |] eqn:Hs; [| discriminate].
    intros [= <- <- <-].
    destruct (paginate_extends _ _ _ _ _ _ _ _ _ Hp)
      as (x1 & toks & -> & Hok1 & -> & ->).
    destruct (IH _ _ _ _ _ Hs)
      as ((x2 & ->) & Hok2 & Hq & Hhd & Hdel & Hcnt).
    split; [exists (x1 ++ x2); rewrite app_assoc; reflexivity |].
    split; [auto |].
    split; [rewrite List.filter_app, chain_first_queries, Hq; reflexivity |].
    split; [reflexivity |].
    split; [rewrite delayed_chain_app, Hdel by exact Hhd; reflexivity |].
    rewrite !count_app, Hcnt.
    destruct (chain_counts api_key (Nearby location radius kw api_key) toks)
      as (_ & Hsl & Hrq).
    rewrite Hsl, Hrq. reflexivity.
Qed.


(** X5: every keyword is searched once and in order, also after an earlier
    keyword's requests failed: the first requests of the chains are the
    Nearby Search requests of the keywords.  Every request that carries a
    token comes directly after the pause, and there are as many pauses as
    such requests. *)
Theorem get_places_requests (fuel : nat) (w : world) (location : string)
    (radius : Z) (keywords : list string) (api_key : option string)
    (places : list business) (evs : list event) :
  get_places fuel w location radius keywords api_key = Some (places, evs) ->
  List.filter is_first_query evs
  = map (fun kw => EvSearch (Nearby location radius kw api_key)) keywords
  /\ delayed None evs = true
  /\ count is_sleep evs = count is_requery evs
  /\ count is_details evs = 0%nat /\ count is_fetch evs = 0%nat.
Proof.
  unfold get_places.
  destruct (search_keywords fuel w location radius keywords api_key 0%nat [])
    as [[[d k] e] |] eqn:Hs; [| discriminate].
  intros [= <- <-].
  destruct (search_keywords_extends _ _ _ _ _ _ _ _ _ _ _ Hs)
    as (_ & _ & Hq & _ & Hdel & Hcnt).
  split; [exact Hq |]. split; [exact Hdel |]. split; [exact Hcnt |].
  assert (Hsearch : Forall (fun x => is_search x || is_sleep x = true) e).
  { clear - Hs. revert Hs. generalize 0%nat at 1 as k0.
    generalize (@nil (string * business)) as d0. revert d k e.
    induction keywords as [| kw keywords IH]; intros d k e d0 k0;
      cbn [search_keywords].
    - intros [= <- <- <-]. constructor.
    - destruct (paginate fuel w api_key _ k0 d0) as [[[p1 k1] e1] |] eqn:Hp;
        [| discriminate].
      destruct (search_keywords fuel w location radius keywords api_key k1 p1)
        as [[[p2 k2] e2] |] eqn:Hs; [| discriminate].
      intros [= <- <- <-]. apply Forall_app. split; [| eapply IH, Hs].
      destruct (paginate_extends _ _ _ _ _ _ _ _ _ Hp)
        as (_ & toks & _ & _ & -> & _).
      clear. generalize (Nearby location radius kw api_key) as ps.
      induction toks as [| tok toks IHt]; intros ps.
      + repeat constructor.
      + rewrite chain_cons. constructor; [reflexivity |].
        constructor; [reflexivity |]. apply IHt. }
  unfold count. clear - Hsearch. split.
  - induction Hsearch as [| x l Hx _ IHl]; [reflexivity |].
    destruct x; cbn in Hx |- *; try discriminate Hx; exact IHl.
  - induction Hsearch as [| x l Hx _ IHl]; [reflexivity |].
    destruct x; cbn in Hx |- *; try discriminate Hx; exact IHl.
Qed.

Lemma search_keywords_app (fuel : nat) (w : world) (location : string)
    (radius : Z) (api_key : option string) (kws1 kws2 : list string) :
  forall (k : nat) (places : dict string business),
    search_keywords fuel w location radius (kws1 ++ kws2) api_key k places
    = match search_keywords fuel w location radius kws1 api_key k places with
      | None => None
      | Some (p1, k1, e1) =>
          match search_keywords fuel w location radius kws2 api_key k1 p1 with
          | None => None
          | Some (p2, k2, e2) => Some (p2, k2, e1 ++ e2)
          end
      end.
Proof.
  induction kws1 as [| kw kws1 IH]; intros k places; cbn [app search_keywords].
  - destruct (search_keywords fuel w location radius kws2 api_key k places)
      as [[[p2 k2] e2] |]; reflexivity.
  - destruct (paginate fuel w api_key _ k places) as [[[p0 k0] e0] |];
      [| reflexivity].
    rewrite IH.
    destruct (search_keywords fuel w location radius kws1 api_key k0 p0)
      as [[[p1 k1] e1] |]; [| reflexivity].
    destruct (search_keywords fuel w location radius kws2 api_key k1 p1)
      as [[[p2 k2] e2] |]; [| reflexivity].
    rewrite app_assoc. reflexivity.
Qed.

(** X6: places are only ever appended: the search over [kws1 ++ kws2]
    returns the places found for [kws1], unchanged and first, followed by
    the places that only [kws2] contributed; a place seen again keeps the
    data of its first sighting.  The same holds of the requests. *)
Theorem get_places_keywords_append (fuel : nat) (w : world)
    (location : string) (radius : Z) (kws1 kws2 : list string)
    (api_key : option string) (places : list business) (evs : list event) :
  get_places fuel w location radius (kws1 ++ kws2) api_key
  = Some (places, evs) ->
  exists places1 evs1 places2 evs2,
    get_places fuel w location radius kws1 api_key = Some (places1, evs1)
    /\ places = places1 ++ places2
    /\ evs = evs1 ++ evs2.
Proof.
  unfold get_places. rewrite search_keywords_app.
  destruct (search_keywords fuel w location radius kws1 api_key 0%nat [])
    as [[[p1 k1] e1] |]; [| discriminate].
  destruct (search_keywords fuel w location radius kws2 api_key k1 p1)
    as [[[p2 k2] e2] |] eqn:Hs2; [| discriminate].
  intros [= <- <-].
  destruct (search_keywords_extends _ _ _ _ _ _ _ _ _ _ _ Hs2)
    as ((extra & ->) & _).
  exists (dict_values p1), e1, (dict_values extra), e2.
  unfold dict_values. rewrite map_app. auto.
Qed.

(** ** The in-batch deduplication: [process_businesses], second loop *)

Lemma firsts_sublist (seen : list (option string)) (l : list entry) :
  sublist (firsts seen l) l.
Proof.
  revert seen. induction l as [| e l IH]; intros seen; cbn; [constructor |].
  destruct (bool_decide (dedup_key e ∈ seen));
    [apply sublist_cons, IH | apply sublist_skip, IH].
Qed.

Lemma firsts_keys (seen : list (option string)) (l : list entry) :
  NoDup (map dedup_key (firsts seen l))
  /\ (forall k, k ∈ map dedup_key (firsts seen l) -> k ∉ seen)
  /\ (forall e, e ∈ l ->
        dedup_key e ∈ seen \/ dedup_key e ∈ map dedup_key (firsts seen l)).
Proof.
  revert seen. induction l as [| e l IH]; intros seen; cbn.
  - split; [constructor |]. split; intros x Hx; inversion Hx.
  - destruct (bool_decide_reflect (dedup_key e ∈ seen)) as [Hseen | Hnew].
    + destruct (IH seen) as (Hnd & Hout & Hcov).
      split; [exact Hnd |]. split; [exact Hout |].
      intros x Hx. apply elem_of_cons in Hx as [-> | Hx]; auto.
    + destruct (IH (dedup_key e :: seen)) as (Hnd & Hout & Hcov).
      cbn [map]. split; [| split].
      * constructor; [| exact Hnd].
        intros Hin. apply Hout in Hin. apply Hin. left.
      * intros k Hk. apply elem_of_cons in Hk as [-> | Hk]; [exact Hnew |].
        apply Hout in Hk. intros Hs. apply Hk. right. exact Hs.
      * intros x Hx. apply elem_of_cons in Hx as [-> | Hx];
          [right; left |].
        destruct (Hcov x Hx) as [Hs | Hf]; [| right; right; exact Hf].
        apply elem_of_cons in Hs as [-> | Hs];
          [right; left | left; exact Hs].
Qed.

Lemma firsts_fixed (seen : list (option string)) (l : list entry) :
  NoDup (map dedup_key l) ->
  (forall k, k ∈ map dedup_key l -> k ∉ seen) ->
  firsts seen l = l.
Proof.
  revert seen. induction l as [| e l IH]; intros seen Hnd Hout; cbn;
    [reflexivity |].
  cbn [map] in Hnd, Hout. apply NoDup_cons in Hnd as [He Hnd].
  rewrite bool_decide_eq_false_2 by (apply Hout; left).
  f_equal. apply IH; [exact Hnd |].
  intros k Hk Hs. apply elem_of_cons in Hs as [-> | Hs];
    [exact (He Hk) |].
  apply (Hout k); [right; exact Hk | exact Hs].
Qed.

(** X7: the deduplicated batch is a sub-list of the batch, in the batch's
    order and starting with its first entry; its keys are pairwise
    different; every key of the batch is still present; and deduplicating
    again changes nothing. *)
Theorem deduplicate_first_occurrences (batch : list entry) :
  sublist (deduplicate batch) batch
  /\ head (deduplicate batch) = head batch
  /\ NoDup (map dedup_key (deduplicate batch))
  /\ (forall e, e ∈ batch ->
        dedup_key e ∈ map dedup_key (deduplicate batch))
  /\ deduplicate (deduplicate batch) = deduplicate batch.
Proof.
  rewrite !deduplicate_firsts.
  destruct (firsts_keys [] batch) as (Hnd & Hout & Hcov).
  split; [apply firsts_sublist |].
  split; [destruct batch; reflexivity |].
  split; [exact Hnd |]. split.
  - intros e He. destruct (Hcov e He) as [Hs | Hf]; [inversion Hs | exact Hf].
  - apply firsts_fixed; [exact Hnd | exact Hout].
Qed.

Section Coverage.

Context `{Runtime}.

(** ** The contact extractor: [analyze_website] *)

(** X8: a call without a URL ([None] or the empty string) returns the
    default analysis without touching the network, and this is the only way
    to get an analysis without a fetch; every call makes at most one fetch
    and nothing else; and an analysis that comes with a fetch has its HTTPS
    flag read off the fetched URL and an error exactly when the fetch
    failed. *)
Theorem analyze_website_single_fetch (w : world) (url : option string) :
  (truthy_opt url = false ->
   analyze_website w url = ([], Returned default_analysis))
  /\ (forall a, analyze_website w url = ([], Returned a) ->
        a = default_analysis /\ truthy_opt url = false)
  /\ (fst (analyze_website w url) = []
      \/ exists u, fst (analyze_website w url) = [EvFetch u])
  /\ (forall u a, analyze_website w url = ([EvFetch u], Returned a) ->
        a_https a = startswith (lower u) "https://"
        /\ (a_error a = None <-> exists html, http_get w u = HttpBody html)).
Proof.
  unfold analyze_website.
  destruct url as [url |]; cbn [truthy_opt].
  2:{ split; [reflexivity |]. split; [intros a [= <-]; auto |].
      split; [left; reflexivity | discriminate]. }
  destruct (truthy_str url); cbn [negb].
  2:{ split; [reflexivity |]. split; [intros a [= <-]; auto |].
      split; [left; reflexivity | discriminate]. }
  split; [discriminate |].
  destruct (urlparse_scheme _) as [e | scheme].
  { split; [discriminate |]. split; [left; reflexivity | discriminate]. }
  set (fetched := if negb (truthy_str scheme) then _ else _).
  destruct (http_get w fetched) as [msg | html] eqn:Hget.
  - split; [discriminate |]. split; [right; eauto |].
    intros u a [= <- <-]. cbn. split; [reflexivity |].
    split; [discriminate |]. intros [html Hh]. congruence.
  - destruct (parse_page html) as [e | ps].
    + split; [discriminate |]. split; [right; eauto | discriminate].
    + split; [discriminate |]. split; [right; eauto |].
      intros u a [= <- <-]. cbn. split; [reflexivity |].
      split; [eauto | reflexivity].
Qed.

Lemma no_colon_remove_unsafe (s : string) :
  contains_char 58 s = false -> contains_char 58 (remove_unsafe s) = false.
Proof.
  unfold contains_char. rewrite !negb_false_iff.
  induction s as [| c s IH]; cbn [remove_unsafe forall_chars];
    [reflexivity |].
  intros Hs. apply andb_prop in Hs as [Hc Hs].
  destruct (_ || _); [apply IH, Hs |].
  cbn [forall_chars]. rewrite Hc, (IH Hs). reflexivity.
Qed.

Lemma no_colon_lstrip (s : string) :
  contains_char 58 s = false -> contains_char 58 (lstrip_c0 s) = false.
Proof.
  unfold contains_char. rewrite !negb_false_iff.
  induction s as [| c s IH]; cbn [lstrip_c0 forall_chars]; [reflexivity |].
  intros Hs. destruct (in_range 0 32 c); [| exact Hs].
  apply andb_prop in Hs as [_ Hs]. apply IH, Hs.
Qed.

Lemma no_colon_break (s : string) :
  contains_char 58 s = false -> break_at (is_char 58) s = (s, EmptyString).
Proof.
  unfold contains_char. rewrite negb_false_iff.
  induction s as [| c s IH]; cbn [break_at forall_chars]; [reflexivity |].
  intros Hs. apply andb_prop in Hs as [Hc Hs].
  apply negb_true_iff in Hc. rewrite Hc, (IH Hs). reflexivity.
Qed.

Lemma urlparse_scheme_cases (url : string) :
  urlparse_scheme url
  = Returned (fst (split_scheme (remove_unsafe (lstrip_c0 url))))
  \/ urlparse_scheme url = Raised "Invalid IPv6 URL".
Proof.
  unfold urlparse_scheme.
  destruct (split_scheme _) as [scheme rest]. cbn [fst].
  destruct rest as [| c0 rest]; [left; reflexivity |].
  destruct c0 as [[] [] [] [] [] [] [] []]; try (left; reflexivity).
  destruct rest as [| c1 rest]; [left; reflexivity |].
  destruct c1 as [[] [] [] [] [] [] [] []]; try (left; reflexivity).
  destruct (xorb _ _); [right | left]; reflexivity.
Qed.

Lemma no_colon_scheme (url : string) :
  contains_char 58 url = false ->
  urlparse_scheme url = Returned EmptyString
  \/ urlparse_scheme url = Raised "Invalid IPv6 URL".
Proof.
  intros Hurl. destruct (urlparse_scheme_cases url) as [Hr | Hr];
    [left | right; exact Hr].
  rewrite Hr. unfold split_scheme.
  rewrite no_colon_break
    by (apply no_colon_remove_unsafe, no_colon_lstrip, Hurl).
  destruct (remove_unsafe (lstrip_c0 url)); reflexivity.
Qed.

(** X9: the URL is given a scheme before it is fetched.  A protocol-
    relative URL ([//host/...]) is fetched as [https://host/...] and
    analysed with the HTTPS flag set; a URL without a colon that is not
    protocol-relative (a bare host) is fetched as [http://] followed by the
    URL, with the flag unset.  The call can only raise before the fetch
    (from [urlparse]) or after it (from the parsing of the page). *)
Theorem analyze_website_normalizes (w : world) (url : string) :
  (startswith url "//" = true ->
   match analyze_website w (Some url) with
   | (evs, Raised _) =>
       evs = [] \/ evs = [EvFetch (String.append "https:" url)]
   | (evs, Returned a) =>
       evs = [EvFetch (String.append "https:" url)] /\ a_https a = true
   end)
  /\ (truthy_str url = true -> startswith url "//" = false ->
      contains_char 58 url = false ->
      match analyze_website w (Some url) with
      | (evs, Raised _) =>
          evs = [] \/ evs = [EvFetch (String.append "http://" url)]
      | (evs, Returned a) =>
          evs = [EvFetch (String.append "http://" url)] /\ a_https a = false
      end).
Proof.
  split.
  - intros Hpre. unfold analyze_website. rewrite Hpre.
    assert (Hurl : exists rest, url = String "/" (String "/" rest)).
    { unfold startswith in Hpre. destruct url as [| c0 [| c1 rest]];
        cbn [String.prefix] in Hpre; try discriminate Hpre;
        destruct (ascii_dec "/" c0) as [<- |]; try discriminate Hpre.
      destruct (ascii_dec "/" c1) as [<- |]; [eauto | discriminate Hpre]. }
    destruct Hurl as [rest ->]. cbn [truthy_str negb].
    destruct (urlparse_scheme_cases
                (String.append "https:" (String "/" (String "/" rest))))
      as [Hr | Hr]; rewrite Hr; [| left; reflexivity].
    change (fst (split_scheme _)) with "https". cbn [truthy_str negb].
    assert (Hflag : startswith
                      (lower (String.append "https:"
                                (String "/" (String "/" rest))))
                      "https://" = true).
    { change (lower (String.append "https:" (String "/" (String "/" rest))))
        with (String.append "https://" (lower rest)).
      unfold startswith. destruct (lower rest); reflexivity. }
    rewrite Hflag.
    destruct (http_get w _) as [msg | html]; [split; reflexivity |].
    destruct (parse_page html); [right; reflexivity | split; reflexivity].
  - intros Htruthy Hpre Hcolon. unfold analyze_website.
    rewrite Htruthy, Hpre. cbn [negb].
    destruct (no_colon_scheme url Hcolon) as [Hr | Hr]; rewrite Hr;
      [| left; reflexivity].
    cbn [truthy_str negb].
    change (startswith (lower (String.append "http://" url)) "https://")
      with false.
    destruct (http_get w _) as [msg | html]; [split; reflexivity |].
    destruct (parse_page html); [right; reflexivity | split; reflexivity].
Qed.

(** ** Enrichment and row assembly: [process_businesses] *)

Lemma enrich_spec (w : world) (api_key : option string)
    (businesses : list business) :
  fst (enrich w api_key businesses)
  = map (fun b => fst (enrich_one w api_key b)) businesses
  /\ snd (enrich w api_key businesses)
     = flat_map (fun b => [EvDetails (b_place_id b) api_key;
                           EvSleep PLACES_SLEEP]) businesses.
Proof.
  induction businesses as [| b businesses [IHe IHv]]; cbn [enrich];
    [split; reflexivity |].
  destruct (enrich w api_key businesses) as [enriched evs].
  cbn [fst snd enrich_one map flat_map] in *. subst. split; reflexivity.
Qed.

Lemma submit_events (w : world) (b : entry) :
  fst (submit w b) = []
  \/ (truthy_opt (e_website b) = true
      /\ exists u, fst (submit w b) = [EvFetch u]).
Proof.
  unfold submit. destruct (truthy_opt (e_website b)) eqn:Hweb;
    [| left; reflexivity].
  unfold analyze_website. destruct (e_website b) as [url |];
    [| left; reflexivity].
  destruct (truthy_str url); cbn [negb]; [| left; reflexivity].
  destruct (urlparse_scheme _); [left; reflexivity |].
  destruct (http_get w _); [right; eauto |].
  destruct (parse_page _); right; eauto.
Qed.

Lemma analyze_all_events (w : world) (businesses_unique : list entry) :
  Forall (fun e => is_fetch e = true) (snd (analyze_all w businesses_unique))
  /\ (length (snd (analyze_all w businesses_unique))
      <= length (List.filter (fun b => truthy_opt (e_website b))
                             businesses_unique))%nat.
Proof.
  unfold analyze_all. cbn [snd]. rewrite map_map. cbn [snd fst].
  induction businesses_unique as [| b bs [IHf IHl]]; cbn [map concat];
    [split; [constructor | reflexivity] |].
  cbn [List.filter].
  destruct (submit_events w b) as [-> | (Hweb & u & ->)].
  - cbn [app]. split; [exact IHf |].
    destruct (truthy_opt (e_website b)); cbn [length]; lia.
  - rewrite Hweb. cbn [app length]. split; [constructor; [reflexivity | exact IHf] | lia].
Qed.

Lemma score_lead_bounds has_website https has_viewport html_length emails
    has_cta rating user_ratings_total :
  0 <= score_lead has_website https has_viewport html_length emails has_cta
                  rating user_ratings_total <= 17.
Proof.
  rewrite score_lead_eq_policy. unfold policy_score.
  destruct has_website; [| lia].
  pose proof (points_bounds 5 (negb https)).
  pose proof (points_bounds 3 (negb has_viewport)).
  pose proof (points_bounds 3 (short_page html_length)).
  pose proof (points_bounds 2 (no_emails emails)).
  pose proof (points_bounds 2 (negb has_cta)).
  pose proof (points_bounds 1 (low_rating rating)).
  pose proof (points_bounds 1 (low_reviews user_ratings_total)).
  lia.
Qed.

Lemma claimed_sublist (businesses_unique : list entry)
    (existing_ids : gset string) :
  sublist (claimed businesses_unique existing_ids) businesses_unique.
Proof.
  revert existing_ids.
  induction businesses_unique as [| b rest IH]; intros existing_ids;
    cbn [claimed]; [constructor |].
  destruct (e_place_id b) as [p |]; [| apply sublist_cons, IH].
  destruct (truthy_str p && bool_decide (p ∉ existing_ids));
    [apply sublist_skip, IH | apply sublist_cons, IH].
Qed.

Lemma claimed_ids_length (businesses_unique : list entry)
    (existing_ids : gset string) :
  length (omap e_place_id (claimed businesses_unique existing_ids))
  = length (claimed businesses_unique existing_ids).
Proof.
  revert existing_ids.
  induction businesses_unique as [| b rest IH]; intros existing_ids;
    cbn [claimed]; [reflexivity |].
  destruct (e_place_id b) as [p |] eqn:Hp; [| apply IH].
  destruct (truthy_str p && bool_decide (p ∉ existing_ids)); [| apply IH].
  change (omap e_place_id (b :: ?l))
    with (match e_place_id b with
          | Some q => q :: omap e_place_id l
          | None => omap e_place_id l
          end).
  rewrite Hp. cbn [length]. rewrite IH. reflexivity.
Qed.

Lemma filter_no_fetch (evs : list event) :
  Forall (fun e => is_fetch e = true) evs ->
  List.filter (fun e => negb (is_fetch e)) evs = []
  /\ count is_fetch evs = length evs.
Proof.
  unfold count. induction 1 as [| e evs He _ [IH1 IH2]]; [split; reflexivity |].
  cbn. rewrite He. cbn. rewrite IH1, IH2. split; reflexivity.
Qed.

(** X10: what one call of [process_businesses] does.  The identifier set
    only grows, by exactly one identifier per row built; there are at most
    as many rows as businesses and every score lies between 0 and 17.  The
    events other than website fetches are one Place Details request per
    business, in order, each followed by the pause; there is at most one
    fetch per business. *)
Theorem process_businesses_accounting (w : world) (businesses : list business)
    (api_key : option string) (existing_ids : gset string) :
  match process_businesses w businesses api_key existing_ids with
  | (rows, ids, evs) =>
      existing_ids ⊆ ids
      /\ size ids = (size existing_ids + length rows)%nat
      /\ (length rows <= length businesses)%nat
      /\ Forall (fun r => 0 <= r_lead_score r <= 17) rows
      /\ List.filter (fun e => negb (is_fetch e)) evs
         = flat_map (fun b => [EvDetails (b_place_id b) api_key;
                               EvSleep PLACES_SLEEP]) businesses
      /\ (count is_fetch evs <= length businesses)%nat
  end.
Proof.
  unfold process_businesses.
  destruct (enrich_spec w api_key businesses) as [Hen Hev].
  destruct (enrich w api_key businesses) as [enriched evs].
  cbn [fst snd] in Hen, Hev.
  destruct (analyze_all_events w (deduplicate enriched)) as [Hfetch Hlen].
  destruct (analyze_all w (deduplicate enriched)) as [analyses evs'].
  cbn [snd] in Hfetch, Hlen.
  destruct (build_rows_claimed analyses (deduplicate enriched) existing_ids)
    as [Hrows Hids].
  destruct (claimed_ids_fresh (deduplicate enriched) existing_ids)
    as [Hnd Hfresh].
  destruct (build_rows analyses (deduplicate enriched) existing_ids)
    as [rows ids].
  cbn [fst snd] in Hrows, Hids. subst rows ids.
  assert (Hdedup : (length (deduplicate enriched) <= length businesses)%nat).
  { rewrite deduplicate_firsts.
    etransitivity; [apply sublist_length, firsts_sublist |].
    rewrite Hen, length_map. reflexivity. }
  split; [set_solver |].
  split.
  { rewrite size_union by set_solver.
    rewrite size_list_to_set by exact Hnd.
    rewrite claimed_ids_length, length_map. reflexivity. }
  split.
  { rewrite length_map.
    etransitivity; [apply sublist_length, claimed_sublist | exact Hdedup]. }
  split.
  { apply Forall_map, Forall_forall. intros b _. apply score_lead_bounds. }
  destruct (filter_no_fetch evs' Hfetch) as [Hnone Hcount].
  split.
  - rewrite List.filter_app, Hnone, app_nil_r, Hev.
    clear. induction businesses as [| b bs IH]; [reflexivity |].
    cbn. rewrite IH. reflexivity.
  - rewrite count_app, Hcount, Hev.
    assert (Hz : count is_fetch
                   (flat_map (fun b => [EvDetails (b_place_id b) api_key;
                                        EvSleep PLACES_SLEEP]) businesses)
                 = 0%nat).
    { clear. unfold count. induction businesses as [| b bs IH];
        [reflexivity | exact IH]. }
    rewrite Hz. cbn [Nat.add].
    etransitivity; [exact Hlen |].
    etransitivity; [apply List.filter_length_le | exact Hdedup].
Qed.

Lemma claimed_known (businesses_unique : list entry)
    (existing_ids : gset string) :
  (forall b p, b ∈ businesses_unique -> e_place_id b = Some p ->
               p ∈ existing_ids) ->
  claimed businesses_unique existing_ids = [].
Proof.
  induction businesses_unique as [| b rest IH]; intros Hknown; cbn [claimed];
    [reflexivity |].
  assert (Hrest : claimed rest existing_ids = []).
  { apply IH. intros b' p Hb'. apply Hknown. right. exact Hb'. }
  destruct (e_place_id b) as [p |] eqn:Hp; [| exact Hrest].
  rewrite (bool_decide_eq_false_2 (p ∉ existing_ids)).
  - rewrite andb_false_r. exact Hrest.
  - intros Hout. apply Hout, (Hknown b p); [left | exact Hp].
Qed.

Lemma enriched_elem (w : world) (api_key : option string)
    (businesses : list business) (e : entry) :
  e ∈ deduplicate (fst (enrich w api_key businesses)) ->
  exists b, b ∈ businesses /\ e = fst (enrich_one w api_key b).
Proof.
  intros He. rewrite deduplicate_firsts in He.
  pose proof (elem_of_sublist _ _ _ He (firsts_sublist [] _)) as He'.
  clear He. rename He' into He.
  destruct (enrich_spec w api_key businesses) as [Hen _].
  rewrite Hen in He. apply list_elem_of_In, in_map_iff in He as (b & <- & Hb).
  exists b. split; [apply list_elem_of_In, Hb | reflexivity].
Qed.

(** X11: a business whose identifier is already in the set is not reported
    again: when every identifier of the batch is in the set, the call
    builds no row and leaves the set as it was. *)
Theorem known_places_build_no_rows (w : world) (businesses : list business)
    (api_key : option string) (existing_ids : gset string) :
  (forall b p, b ∈ businesses -> b_place_id b = Some p -> p ∈ existing_ids) ->
  fst (fst (process_businesses w businesses api_key existing_ids)) = []
  /\ snd (fst (process_businesses w businesses api_key existing_ids))
     = existing_ids.
Proof.
  intros Hknown. unfold process_businesses.
  pose proof (enriched_elem w api_key businesses) as Helem.
  destruct (enrich w api_key businesses) as [enriched evs].
  cbn [fst] in Helem.
  destruct (analyze_all w (deduplicate enriched)) as [analyses evs'].
  destruct (build_rows_claimed analyses (deduplicate enriched) existing_ids)
    as [Hrows Hids].
  destruct (build_rows analyses (deduplicate enriched) existing_ids)
    as [rows ids].
  cbn [fst snd] in *. subst rows ids.
  rewrite claimed_known; [split; [reflexivity | set_solver] |].
  intros e p He Hp. destruct (Helem e He) as (b & Hb & ->).
  apply (Hknown b p Hb). exact Hp.
Qed.

(** X12: when Place Details yields no website for any place (the service
    is down, or knows none), the call fetches no page and every row it
    builds has no website and the score 10. *)
Theorem no_website_no_fetch (w : world) (businesses : list business)
    (api_key : option string) (existing_ids : gset string) :
  (forall pid, truthy_opt (d_website (get_place_details w pid)) = false) ->
  Forall (fun r => r_lead_score r = 10 /\ truthy_opt (r_website r) = false)
         (fst (fst (process_businesses w businesses api_key existing_ids)))
  /\ count is_fetch
       (snd (process_businesses w businesses api_key existing_ids)) = 0%nat.
Proof.
  intros Hnone. unfold process_businesses.
  pose proof (enriched_elem w api_key businesses) as Helem.
  destruct (enrich_spec w api_key businesses) as [_ Hev].
  destruct (enrich w api_key businesses) as [enriched evs].
  cbn [fst snd] in Helem, Hev.
  assert (Hweb : forall e, e ∈ deduplicate enriched ->
                           truthy_opt (e_website e) = false).
  { intros e He. destruct (Helem e He) as (b & _ & ->). apply Hnone. }
  destruct (analyze_all_events w (deduplicate enriched)) as [_ Hlen].
  destruct (analyze_all w (deduplicate enriched)) as [analyses evs'].
  cbn [snd] in Hlen.
  destruct (build_rows_claimed analyses (deduplicate enriched) existing_ids)
    as [Hrows _].
  destruct (build_rows analyses (deduplicate enriched) existing_ids)
    as [rows ids].
  cbn [fst snd] in *. subst rows. split.
  - apply Forall_map, Forall_forall. intros e He.
    pose proof (elem_of_sublist _ _ _ He (claimed_sublist _ _)) as He'.
    unfold make_row. cbn [r_lead_score r_website].
    rewrite (Hweb e He'). split; reflexivity.
  - assert (Hempty : evs' = []).
    { assert (Hfil : List.filter (fun b => truthy_opt (e_website b))
                                 (deduplicate enriched) = []).
      { clear - Hweb. induction (deduplicate enriched) as [| e l IH];
          [reflexivity |].
        cbn. rewrite (Hweb e) by left. apply IH.
        intros e' He'. apply Hweb. right. exact He'. }
      rewrite Hfil in Hlen.
      destruct evs'; [reflexivity | cbn in Hlen; lia]. }
    rewrite Hempty, app_nil_r, Hev. clear. unfold count.
    induction businesses as [| b bs IH]; [reflexivity | exact IH].
Qed.


(** *** The order in which the analyses complete *)









(** ** The result store: [save_results] *)



















(** ** The duplicate filter: [lead_filter.py] *)

(** X17: on a store that holds a table the loader does not raise, and the
    set it returns holds exactly the [place_id] fields of the rows the
    reader yields. *)
Theorem load_reads_place_id_fields (df : DataFrame) :
  exists ids,
    load_existing_place_ids (Table df) = Some ids
    /\ forall p, p ∈ ids
                 <-> exists r, r ∈ df_rows df
                               /\ dict_get (reader_row (df_columns df) r)
                                           "place_id" = Some p.
Proof.
  unfold load_existing_place_ids. cbn [os_path_exists negb dict_reader].
  eexists. split; [reflexivity |]. intros p.
  match goal with
  | |- p ∈ fold_left ?f _ _ <-> _ =>
      assert (Hfold : forall (rs : list (list cell)) (acc : gset string),
                 p ∈ fold_left f (map (reader_row (df_columns df)) rs) acc
                 <-> p ∈ acc
                     \/ exists r, r ∈ rs
                                  /\ dict_get (reader_row (df_columns df) r)
                                              "place_id" = Some p)
  end.
  { induction rs as [| r rs IH]; intros acc; cbn [map fold_left].
    - split; [auto | intros [Hp | (r & Hr & _)]; [exact Hp | inversion Hr]].
    - rewrite IH.
      destruct (dict_get (reader_row (df_columns df) r) "place_id")
        as [v |] eqn:Hv.
      + rewrite elem_of_union, elem_of_singleton. split.
        * intros [[Hp | ->] | (r' & Hr' & Hp)]; [auto | |].
          -- right. exists r. split; [left | exact Hv].
          -- right. exists r'. split; [right; exact Hr' | exact Hp].
        * intros [Hp | (r' & Hr' & Hp)]; [auto |].
          apply elem_of_cons in Hr' as [-> | Hr'].
          -- left. right. congruence.
          -- right. eauto.
      + split.
        * intros [Hp | (r' & Hr' & Hp)]; [auto |].
          right. exists r'. split; [right; exact Hr' | exact Hp].
        * intros [Hp | (r' & Hr' & Hp)]; [auto |].
          apply elem_of_cons in Hr' as [-> | Hr']; [congruence |].
          right. eauto. }
  rewrite Hfold. split; [intros [Hp | Hr]; [set_solver | exact Hr] | auto].
Qed.

(** X18: claims compose.  Of two successive claims of the same identifier
    at most the first succeeds, and it does exactly when the identifier was
    not in the set; the set never loses an element; and the set reached by
    claiming two identifiers does not depend on the order of the claims. *)
Theorem is_new_place_twice (S : gset string) (p q : string) :
  fst (is_new_place p (snd (is_new_place p S))) = false
  /\ snd (is_new_place p (snd (is_new_place p S))) = snd (is_new_place p S)
  /\ fst (is_new_place p S) = bool_decide (p ∉ S)
  /\ S ⊆ snd (is_new_place p S)
  /\ snd (is_new_place q (snd (is_new_place p S)))
     = snd (is_new_place p (snd (is_new_place q S))).
Proof.
  assert (Hsnd : forall x T, snd (is_new_place x T) = T ∪ {[ x ]}).
  { intros x T. unfold is_new_place. case_bool_decide; cbn; set_solver. }
  assert (Hfst : forall x T, fst (is_new_place x T) = bool_decide (x ∉ T)).
  { intros x T. unfold is_new_place.
    destruct (bool_decide_reflect (x ∈ T)) as [Hin | Hout]; cbn.
    - symmetry. apply bool_decide_eq_false_2. tauto.
    - symmetry. apply bool_decide_eq_true_2. exact Hout. }
  rewrite !Hfst, !Hsnd.
  split; [apply bool_decide_eq_false_2; set_solver |].
  split; [set_solver |]. split; [reflexivity |].
  split; set_solver.
Qed.

(** ** The script as a whole *)




End Coverage.

(** ** The further properties at concrete inputs *)

Lemma filter_emails_canonical_witness :
  filter_emails ["Bob@Example.com"; "a@b.co"]
  = filter_emails ["a@b.co"; "Bob@Example.com"].
Proof.
  apply (proj2 (proj2 (proj2 (filter_emails_canonical
                                ["Bob@Example.com"; "a@b.co"]
                                ["a@b.co"; "Bob@Example.com"])))).
  apply perm_swap.
Defined.

Lemma clean_phone_canonical_witness :
  clean_phone "(+1) 555-123-4567" = Some "(+1) 555-123-4567"
  /\ String.length "(+1) 555-123-4567" = 17%nat
  /\ startswith "(+1) 555-123-4567" "(+1) " = true
  /\ String.length (keep_digits "(+1) 555-123-4567") = 11%nat.
Proof.
  apply (clean_phone_canonical "+1 555.123.4567" "(+1) 555-123-4567").
  reflexivity.
Defined.

Lemma clean_phones_canonical_witness :
  clean_phones ["555-123-4567"; "(444) 123-4567"]
  = clean_phones ["(444) 123-4567"; "555-123-4567"].
Proof.
  apply (proj2 (proj2 (clean_phones_canonical
                         ["555-123-4567"; "(444) 123-4567"]
                         ["(444) 123-4567"; "555-123-4567"]))).
  apply perm_swap.
Defined.


Lemma get_places_requests_witness :
  List.filter is_first_query
    (chain None (Nearby LOCATION SEARCH_RADIUS "landscaping" None)
           ["T1"; "T2"]
     ++ [EvSearch (Nearby LOCATION SEARCH_RADIUS "house cleaning" None)])
  = map (fun kw => EvSearch (Nearby LOCATION SEARCH_RADIUS kw None)) KEYWORDS
  /\ delayed None
       (chain None (Nearby LOCATION SEARCH_RADIUS "landscaping" None)
              ["T1"; "T2"]
        ++ [EvSearch (Nearby LOCATION SEARCH_RADIUS "house cleaning" None)])
     = true
  /\ count is_sleep
       (chain None (Nearby LOCATION SEARCH_RADIUS "landscaping" None)
              ["T1"; "T2"]
        ++ [EvSearch (Nearby LOCATION SEARCH_RADIUS "house cleaning" None)])
     = count is_requery
         (chain None (Nearby LOCATION SEARCH_RADIUS "landscaping" None)
                ["T1"; "T2"]
          ++ [EvSearch (Nearby LOCATION SEARCH_RADIUS "house cleaning" None)])
  /\ count is_details
       (chain None (Nearby LOCATION SEARCH_RADIUS "landscaping" None)
              ["T1"; "T2"]
        ++ [EvSearch (Nearby LOCATION SEARCH_RADIUS "house cleaning" None)])
     = 0%nat
  /\ count is_fetch
       (chain None (Nearby LOCATION SEARCH_RADIUS "landscaping" None)
              ["T1"; "T2"]
        ++ [EvSearch (Nearby LOCATION SEARCH_RADIUS "house cleaning" None)])
     = 0%nat.
Proof.
  apply (get_places_requests 3 three_pages LOCATION SEARCH_RADIUS KEYWORDS
           None []).
  reflexivity.
Defined.

Lemma get_places_keywords_append_witness :
  exists places1 evs1 places2 evs2,
    get_places 1 (town None) LOCATION SEARCH_RADIUS ["landscaping"]
               (Some "key") = Some (places1, evs1)
    /\ [acme_business] = places1 ++ places2
    /\ [EvSearch (Nearby LOCATION SEARCH_RADIUS "landscaping" (Some "key"));
        EvSearch (Nearby LOCATION SEARCH_RADIUS "house cleaning" (Some "key"))]
       = evs1 ++ evs2.
Proof.
  apply (get_places_keywords_append 1 (town None) LOCATION SEARCH_RADIUS
           ["landscaping"] ["house cleaning"] (Some "key")).
  reflexivity.
Defined.

Lemma deduplicate_first_occurrences_witness :
  dedup_key (nameless_entry "p2" (Some ""))
  ∈ map dedup_key (deduplicate nameless_batch).
Proof.
  apply (proj1 (proj2 (proj2 (proj2
                 (deduplicate_first_occurrences nameless_batch))))).
  right. left.
Defined.

Lemma analyze_website_single_fetch_witness :
  analyze_website (H := plain_runtime) offline (Some "")
  = ([], Returned default_analysis).
Proof.
  apply (proj1 (analyze_website_single_fetch (H := plain_runtime) offline
                  (Some ""))).
  reflexivity.
Defined.

Lemma analyze_website_normalizes_witness :
  match analyze_website (H := plain_runtime) offline (Some "//example.com")
  with
  | (evs, Raised _) =>
      evs = [] \/ evs = [EvFetch (String.append "https:" "//example.com")]
  | (evs, Returned a) =>
      evs = [EvFetch (String.append "https:" "//example.com")]
      /\ a_https a = true
  end.
Proof.
  apply (proj1 (analyze_website_normalizes (H := plain_runtime) offline
                  "//example.com")).
  reflexivity.
Defined.

Lemma known_places_build_no_rows_witness :
  fst (fst (process_businesses (H := plain_runtime) (town None)
              [acme_business] (Some "key") {[ "p1" ]})) = []
  /\ snd (fst (process_businesses (H := plain_runtime) (town None)
                 [acme_business] (Some "key") {[ "p1" ]})) = {[ "p1" ]}.
Proof.
  apply (known_places_build_no_rows (H := plain_runtime)).
  intros b p Hb Hp. apply list_elem_of_singleton in Hb. subst b.
  injection Hp as <-. apply elem_of_singleton. reflexivity.
Defined.

Lemma no_website_no_fetch_witness :
  Forall (fun r => r_lead_score r = 10 /\ truthy_opt (r_website r) = false)
         (fst (fst (process_businesses (H := plain_runtime) offline
                      [acme_business] (Some "key") ∅)))
  /\ count is_fetch
       (snd (process_businesses (H := plain_runtime) offline
               [acme_business] (Some "key") ∅)) = 0%nat.
Proof.
  apply (no_website_no_fetch (H := plain_runtime)).
  intros pid. reflexivity.
Defined.




Lemma rewritten_store_seeds_nothing_witness :
  no_place_id (Table first_store)
  /\ load_existing_place_ids (H := plain_runtime) (Table first_store) = Some ∅.
Proof.
  apply (rewritten_store_seeds_nothing (H := plain_runtime)
           [acme_row None 10] Missing (Table first_store) I).
  reflexivity.
Defined.

